(** * A research-assistant agent graph: embedding and verification

  The development follows the four source files of the repository:

  - [agent/llama_guard.ts]        : the safety classifier wrapper (module [LlamaGuard]);
  - [agent/research_assistant.ts] : the agent graph (module [Agent]);
  - [schema/schema.ts]            : the wire message shape (module [Schema]);
  - [service/service.ts]          : the HTTP-facing operations (module [Service]).

  JavaScript strings are sequences of UTF-16 code units.  They are embedded
  as [string], one [ascii] per code unit, which covers the strings whose code
  units are all below 256.  External providers (the classifier, the chat
  model, the prebuilt tool node, the UUID generator) are parameters. *)

From Stdlib Require Import Ascii String List Bool Arith Lia QArith.
From stdpp Require Import base option strings gmap.
Import ListNotations.
Close Scope Q_scope.

Set Implicit Arguments.
Unset Strict Implicit.

(** ** JavaScript string primitives used by the sources *)

Module Js.

(** U+000A, the only separator [split("\n")] recognises. *)
Definition LF : ascii := ascii_of_nat 10.
Definition nl : string := String LF "".

Definition comma : ascii := ascii_of_nat 44.

(** [WhiteSpace] and [LineTerminator] code units below 256, the characters
    that [String.prototype.trim] strips: TAB, LF, VT, FF, CR, SP, NBSP. *)
Definition isWhiteSpace (c : ascii) : bool :=
  match nat_of_ascii c with
  | 9 | 10 | 11 | 12 | 13 | 32 | 160 => true
  | _ => false
  end.

Definition isEmpty (s : string) : bool :=
  match s with EmptyString => true | String _ _ => false end.

Fixpoint trimStart (s : string) : string :=
  match s with
  | EmptyString => EmptyString
  | String c r => if isWhiteSpace c then trimStart r else s
  end.

Fixpoint trimEnd (s : string) : string :=
  match s with
  | EmptyString => EmptyString
  | String c r =>
      let r' := trimEnd r in
      if isWhiteSpace c && isEmpty r' then EmptyString else String c r'
  end.

(** [s.trim()] *)
Definition trim (s : string) : string := trimEnd (trimStart s).

(** [s.split(sep)] for a one-character separator: never the empty list. *)
Fixpoint split (sep : ascii) (s : string) : list string :=
  match s with
  | EmptyString => [EmptyString]
  | String c r =>
      if Ascii.eqb c sep then EmptyString :: split sep r
      else match split sep r with
           | h :: t => String c h :: t
           | [] => [String c EmptyString]
           end
  end.

(** [parts.join(sep)] on an array of strings. *)
Fixpoint join (sep : string) (parts : list string) : string :=
  match parts with
  | [] => EmptyString
  | [p] => p
  | p :: rest => p +:+ sep +:+ join sep rest
  end.

(** [s.includes(c)] for a single code unit. *)
Fixpoint contains (c : ascii) (s : string) : bool :=
  match s with
  | EmptyString => false
  | String a r => Ascii.eqb a c || contains c r
  end.

Fixpoint startsWith (prefix s : string) : bool :=
  match prefix, s with
  | EmptyString, _ => true
  | String a p, String b r => Ascii.eqb a b && startsWith p r
  | String _ _, EmptyString => false
  end.

Fixpoint drop (n : nat) (s : string) : string :=
  match n, s with
  | O, _ => s
  | S n', String _ r => drop n' r
  | S _, EmptyString => EmptyString
  end.

(** The first index at which [pat] occurs in [s], with the text before it
    and the text after the occurrence. *)
Fixpoint findFirst (pat s : string) : option (string * string) :=
  if startsWith pat s then Some (EmptyString, drop (String.length pat) s)
  else match s with
       | EmptyString => None
       | String c r =>
           match findFirst pat r with
           | Some (before, after) => Some (String c before, after)
           | None => None
           end
       end.

(** [GetSubstitution] for a string pattern (no capture groups): in the
    replacement text [$$] is a dollar sign, [$&] the matched text, [$`] the
    text before the match and [$'] the text after it; every other character,
    a dollar sign before anything else included, stands for itself. *)
Fixpoint getSubstitution (matched before after replacement : string) : string :=
  match replacement with
  | EmptyString => EmptyString
  | String c r =>
      if Ascii.eqb c "$" then
        match r with
        | String d r' =>
            if Ascii.eqb d "$" then
              String "$" (getSubstitution matched before after r')
            else if Ascii.eqb d "&" then
              matched +:+ getSubstitution matched before after r'
            else if Ascii.eqb d "`" then
              before +:+ getSubstitution matched before after r'
            else if Ascii.eqb d "'" then
              after +:+ getSubstitution matched before after r'
            else String c (getSubstitution matched before after r)
        | EmptyString => String c EmptyString
        end
      else String c (getSubstitution matched before after r)
  end.

(** [s.replace(pat, replacement)] with a string pattern: only the first
    occurrence is replaced. *)
Definition replace (pat replacement s : string) : string :=
  match findFirst pat s with
  | Some (before, after) =>
      before +:+ getSubstitution pat before after replacement +:+ after
  | None => s
  end.

End Js.

(** ** Messages of the chat framework, as the sources use them *)

Module Msg.

(** The message classes the sources test with [instanceof].  A chunk class
    is not a subclass of its plain class, so each is a class of its own. *)
Inductive MessageClass :=
| HumanMessage | HumanMessageChunk
| AIMessage | AIMessageChunk
| ToolMessage | ToolMessageChunk
| SystemMessage | SystemMessageChunk
| FunctionMessage | GenericChatMessage | RemoveMessage.

Definition className (c : MessageClass) : string :=
  match c with
  | HumanMessage => "HumanMessage" | HumanMessageChunk => "HumanMessageChunk"
  | AIMessage => "AIMessage" | AIMessageChunk => "AIMessageChunk"
  | ToolMessage => "ToolMessage" | ToolMessageChunk => "ToolMessageChunk"
  | SystemMessage => "SystemMessage" | SystemMessageChunk => "SystemMessageChunk"
  | FunctionMessage => "FunctionMessage" | GenericChatMessage => "ChatMessage"
  | RemoveMessage => "RemoveMessage"
  end.

Definition MessageClass_eqb (a b : MessageClass) : bool :=
  String.eqb (className a) (className b).

(** One item of a structured content array: a plain string, or an object
    with its [type] and, when it has one, its [text]. *)
Inductive ContentItem :=
| ItemString (s : string)
| ItemObject (type : string) (text : option string).

Inductive MessageContent :=
| Text (s : string)
| Parts (items : list ContentItem).

Record ToolCall := {
  tc_name : string;
  tc_args : string;
  tc_id : option string
}.

Record BaseMessage := {
  class : MessageClass;
  content : MessageContent;
  tool_calls : option (list ToolCall);
  tool_call_id : option string
}.

(** [m.getType()] *)
Definition getType (m : BaseMessage) : string :=
  match class m with
  | HumanMessage | HumanMessageChunk => "human"
  | AIMessage | AIMessageChunk => "ai"
  | ToolMessage | ToolMessageChunk => "tool"
  | SystemMessage | SystemMessageChunk => "system"
  | FunctionMessage => "function"
  | GenericChatMessage => "generic"
  | RemoveMessage => "remove"
  end.

Definition instanceof (m : BaseMessage) (c : MessageClass) : bool :=
  MessageClass_eqb (class m) c.

(** [new HumanMessage(text)], [new SystemMessage(text)] *)
Definition newHumanMessage (text : string) : BaseMessage :=
  {| class := HumanMessage; content := Text text;
     tool_calls := None; tool_call_id := None |}.

Definition newSystemMessage (text : string) : BaseMessage :=
  {| class := SystemMessage; content := Text text;
     tool_calls := None; tool_call_id := None |}.

(** [new AIMessage({content})]: the constructor fills [tool_calls] with the
    empty array. *)
Definition newAIMessage (text : string) : BaseMessage :=
  {| class := AIMessage; content := Text text;
     tool_calls := Some []; tool_call_id := None |}.

(** What a chat model call returns: an [AIMessageChunk], whose tool calls
    are an array (possibly empty). *)
Record AIResponse := {
  r_content : MessageContent;
  r_tool_calls : list ToolCall
}.

Definition chunkOf (r : AIResponse) : BaseMessage :=
  {| class := AIMessageChunk; content := r_content r;
     tool_calls := Some (r_tool_calls r); tool_call_id := None |}.

(** [String(item)] for an element of a content array. *)
Definition itemToString (i : ContentItem) : string :=
  match i with
  | ItemString s => s
  | ItemObject _ _ => "[object Object]"
  end.

(** The text a template literal puts for [${m.content}]: the string itself,
    or the array's elements joined with a comma. *)
Definition contentToString (c : MessageContent) : string :=
  match c with
  | Text s => s
  | Parts items => Js.join "," (map itemToString items)
  end.

End Msg.

(** ** The run-time the sources execute in: errors, provider calls, events *)

Module Runtime.
Import Msg.

Record JsError := { err_name : string; err_message : string }.

Inductive Result (A : Type) :=
| Ok (a : A)
| Throw (e : JsError).
Arguments Ok {A} a.
Arguments Throw {A} e.

(** The configuration a run carries: [configurable.thread_id],
    [configurable.model] and [runId]. *)
Record RunnableConfig := {
  thread_id : string;
  cfg_model : string;
  runId : string
}.

Record ChatOpenAI := {
  modelName : string;
  temperature : Q;
  streaming : bool
}.

(** One request to the chat model: the client it goes through, the names of
    the tools bound to it, the prompt and the configuration passed along. *)
Record ModelCall := {
  mc_client : ChatOpenAI;
  mc_tools : list string;
  mc_messages : list BaseMessage;
  mc_config : RunnableConfig
}.

(** What the service reads of an event's [data]: [data.output] (absent when
    [None]) with its [messages] member, and [data.chunk] with its content. *)
Record OutputView := { out_messages : option (list BaseMessage) }.

Record StreamEvent := {
  event : string;
  name : string;
  langgraph_node : option string;
  tags : option (list string);
  data_output : option OutputView;
  data_chunk : option MessageContent
}.

(** Everything a turn does to the outside: the classification requests and
    model requests sent, the tool rounds run, the events published, and the
    graph nodes entered so far (the last one is the node being executed). *)
Record World := {
  guard_requests : list string;
  model_requests : list ModelCall;
  tool_rounds : nat;
  events : list StreamEvent;
  steps : list string
}.

Definition emptyWorld : World :=
  {| guard_requests := []; model_requests := []; tool_rounds := 0;
     events := []; steps := [] |}.

(** The external collaborators.  Each answer may depend on how many
    requests of its kind came before, and each call may fail.  The last two
    members are what the graph framework leaves open here: the runs it traces
    inside a node, by name, each with whether its output is the node's update
    (the node's function) or not (the edge condition, whose output is a path
    name), and the text of its step-budget error. *)
Record Providers := {
  GROQ_API_KEY : option string;
  groq : nat -> string -> Result string;
  groq_stream : nat -> string -> list MessageContent;
  openai : nat -> ModelCall -> Result AIResponse;
  openai_stream : nat -> ModelCall -> list MessageContent;
  toolNode : nat -> list BaseMessage -> Result (list BaseMessage);
  instructions : string;
  traced : string -> list (string * bool);
  budget_message : string
}.

(** Computations that read and extend the world and may throw. *)
Definition M (A : Type) : Type := World -> Result A * World.

Definition ret {A} (a : A) : M A := fun w => (Ok a, w).

Definition throw {A} (e : JsError) : M A := fun w => (Throw e, w).

Definition bind {A B} (m : M A) (k : A -> M B) : M B :=
  fun w =>
    match m w with
    | (Ok a, w') => k a w'
    | (Throw e, w') => (Throw e, w')
    end.

Definition lift {A} (r : Result A) : M A := fun w => (r, w).

Definition publish (evs : list StreamEvent) : M unit :=
  fun w =>
    (Ok tt,
     {| guard_requests := guard_requests w;
        model_requests := model_requests w;
        tool_rounds := tool_rounds w;
        events := events w ++ evs;
        steps := steps w |}).

Definition enter (node : string) : M unit :=
  fun w =>
    (Ok tt,
     {| guard_requests := guard_requests w;
        model_requests := model_requests w;
        tool_rounds := tool_rounds w;
        events := events w;
        steps := steps w ++ [node] |}).

Definition streamChunk (evname : string) (node : option string)
    (tgs : list string) (c : MessageContent) : StreamEvent :=
  {| event := "on_chat_model_stream"; name := evname; langgraph_node := node;
     tags := Some tgs; data_output := None; data_chunk := Some c |}.

(** One classification request: it is recorded, its streamed chunks are
    published under the client's tags, and the reply text comes back. *)
Definition classify (P : Providers) (tgs : list string) (prompt : string) : M string :=
  fun w =>
    let n := List.length (guard_requests w) in
    (groq P n prompt,
     {| guard_requests := guard_requests w ++ [prompt];
        model_requests := model_requests w;
        tool_rounds := tool_rounds w;
        events := events w ++
                  map (streamChunk "ChatGroq" (last (steps w)) tgs)
                      (groq_stream P n prompt);
        steps := steps w |}).

(** One chat-model request. *)
Definition complete (P : Providers) (call : ModelCall) : M AIResponse :=
  fun w =>
    let n := List.length (model_requests w) in
    (openai P n call,
     {| guard_requests := guard_requests w;
        model_requests := model_requests w ++ [call];
        tool_rounds := tool_rounds w;
        events := events w ++
                  map (streamChunk "ChatOpenAI" (last (steps w)) [])
                      (openai_stream P n call);
        steps := steps w |}).

(** One round of the prebuilt tool node over the messages so far. *)
Definition runTools (P : Providers) (messages : list BaseMessage) : M (list BaseMessage) :=
  fun w =>
    (toolNode P (tool_rounds w) messages,
     {| guard_requests := guard_requests w;
        model_requests := model_requests w;
        tool_rounds := S (tool_rounds w);
        events := events w;
        steps := steps w |}).

End Runtime.

Declare Scope agent_scope.
Notation "x <- m ;; k" := (Runtime.bind m (fun x => k))
  (at level 100, m at next level, right associativity) : agent_scope.

(** ** agent/llama_guard.ts *)

Module LlamaGuard.
Import Msg Runtime.
Local Open Scope agent_scope.

Inductive SafetyAssessment := SAFE | UNSAFE | ERROR.

Definition SafetyAssessment_eqb (a b : SafetyAssessment) : bool :=
  match a, b with
  | SAFE, SAFE | UNSAFE, UNSAFE | ERROR, ERROR => true
  | _, _ => false
  end.

(** What indexing the category object with an arbitrary key can give: the
    label of an own entry, a member inherited from [Object.prototype], or
    [undefined]. *)
Inductive CategoryValue :=
| Label (text : string)
| Inherited (key : string)
| Undefined.

Record LlamaGuardOutput := {
  safety_assessment : SafetyAssessment;
  unsafe_categories : list CategoryValue
}.

Definition unsafeContentCategories : list (string * string) :=
  [ ("S1", "Violent Crimes");
    ("S2", "Non-Violent Crimes");
    ("S3", "Sex Crimes");
    ("S4", "Child Exploitation");
    ("S5", "Defamation");
    ("S6", "Specialized Advice");
    ("S7", "Privacy");
    ("S8", "Intellectual Property");
    ("S9", "Indiscriminate Weapons");
    ("S10", "Hate");
    ("S11", "Self-Harm");
    ("S12", "Sexual Content");
    ("S13", "Elections");
    ("S14", "Code Interpreter Abuse") ].

(** The members every object literal inherits from [Object.prototype]. *)
Definition objectPrototypeKeys : list string :=
  [ "constructor"; "__defineGetter__"; "__defineSetter__"; "hasOwnProperty";
    "__lookupGetter__"; "__lookupSetter__"; "isPrototypeOf";
    "propertyIsEnumerable"; "toString"; "valueOf"; "__proto__";
    "toLocaleString" ].

Fixpoint ownEntry (entries : list (string * string)) (key : string) : option string :=
  match entries with
  | [] => None
  | (k, v) :: rest => if String.eqb k key then Some v else ownEntry rest key
  end.

(** [unsafeContentCategories[key]]: indexing never throws. *)
Definition categoryAt (key : string) : CategoryValue :=
  match ownEntry unsafeContentCategories key with
  | Some v => Label v
  | None =>
      if existsb (String.eqb key) objectPrototypeKeys then Inherited key
      else Undefined
  end.

(** [Object.entries(...).map(([k, v]) => `${k}: ${v}`).join("\n")] *)
Definition categoriesStr : string :=
  Js.join Js.nl (map (fun '(k, v) => k +:+ ": " +:+ v) unsafeContentCategories).

Definition llamaGuardInstructions : string :=
  Js.nl +:+
  "Task: Check if there is unsafe content in '{role}' messages in conversations according to our safety policy with the below categories."
  +:+ Js.nl +:+ Js.nl +:+
  "<BEGIN UNSAFE CONTENT CATEGORIES>" +:+ Js.nl +:+
  categoriesStr +:+ Js.nl +:+
  "<END UNSAFE CONTENT CATEGORIES>" +:+ Js.nl +:+ Js.nl +:+
  "<BEGIN CONVERSATION>" +:+ Js.nl +:+ Js.nl +:+
  "{conversation_history}" +:+ Js.nl +:+ Js.nl +:+
  "<END CONVERSATION>" +:+ Js.nl +:+ Js.nl +:+
  "Provide your safety assessment for ONLY THE LAST {role} in the above conversation:"
  +:+ Js.nl +:+
  "- First line must read 'safe' or 'unsafe'." +:+ Js.nl +:+
  "- If unsafe, a second line must include a comma-separated list of violated categories.".

(** The text [Array.prototype.join] puts for one element: [undefined] gives
    the empty string, an inherited member its own string form (the native
    function text for the methods, the object tag for [__proto__]). *)
Definition categoryText (v : CategoryValue) : string :=
  match v with
  | Label s => s
  | Undefined => ""
  | Inherited k =>
      if String.eqb k "__proto__" then "[object Object]"
      else "function " +:+ (if String.eqb k "constructor" then "Object" else k)
           +:+ "() { [native code] }"
  end.

(** [unsafe_categories.join(", ")] *)
Definition joinCategories (cats : list CategoryValue) : string :=
  Js.join ", " (map categoryText cats).

(** The classifier client built by the constructor. *)
Record ChatGroq := {
  g_modelName : string;
  g_temperature : Q;
  g_tags : list string
}.

Record t := { model : option ChatGroq }.

(** [constructor()], given the value of [process.env.GROQ_API_KEY]
    ([None] when the variable is not set); the empty string is falsy too. *)
Definition new (GROQ_API_KEY : option string) : t :=
  match GROQ_API_KEY with
  | None | Some EmptyString => {| model := None |}
  | Some (String _ _) =>
      {| model := Some {| g_modelName := "llama-guard-3-8b";
                          g_temperature := 0;
                          g_tags := ["llama_guard"] |} |}
  end.

Definition roleMapping (type : string) : string :=
  if String.eqb type "ai" then "Agent"
  else if String.eqb type "human" then "User"
  else "undefined".

Definition compilePrompt (role : string) (messages : list BaseMessage) : string :=
  let messagesStr :=
    Js.join (Js.nl +:+ Js.nl)
      (map (fun m => roleMapping (getType m) +:+ ": " +:+ contentToString (content m))
         (List.filter (fun m => String.eqb (getType m) "ai" || String.eqb (getType m) "human")
            messages)) in
  Js.replace "{conversation_history}" messagesStr
    (Js.replace "{role}" role llamaGuardInstructions).

(** The body of the [try] block: splitting, trimming and indexing cannot
    throw, so it always completes. *)
Definition readCategories (line : string) : Result (list CategoryValue) :=
  Ok (map (fun c => categoryAt (Js.trim c)) (Js.split Js.comma line)).

Definition parseLlamaGuardOutput (output : string) : LlamaGuardOutput :=
  if String.eqb output "safe" then
    {| safety_assessment := SAFE; unsafe_categories := [] |}
  else
    let parsed := Js.split Js.LF output in
    if negb (Nat.eqb (List.length parsed) 2)
       || negb (String.eqb (nth 0 parsed "") "unsafe") then
      {| safety_assessment := ERROR; unsafe_categories := [] |}
    else
      match readCategories (nth 1 parsed "") with
      | Ok readableCategories =>
          {| safety_assessment := UNSAFE; unsafe_categories := readableCategories |}
      | Throw _ => {| safety_assessment := ERROR; unsafe_categories := [] |}
      end.

Definition invoke (P : Providers) (guard : t) (role : string)
    (messages : list BaseMessage) : M LlamaGuardOutput :=
  match model guard with
  | None => ret {| safety_assessment := SAFE; unsafe_categories := [] |}
  | Some client =>
      let compiledPrompt := compilePrompt role messages in
      result <- classify P (g_tags client) compiledPrompt ;;
      ret (parseLlamaGuardOutput result)
  end.

End LlamaGuard.

(** ** agent/research_assistant.ts *)

Module Agent.
Import Msg Runtime LlamaGuard.
Local Open Scope agent_scope.

Definition models : gmap string ChatOpenAI :=
  <["gpt-3.5-turbo" := {| modelName := "gpt-3.5-turbo-0125";
                          temperature := 0%Q; streaming := true |}]>
    (<["gpt-4" := {| modelName := "gpt-4";
                     temperature := (1 # 2)%Q; streaming := false |}]> ∅).

(** The client registered under [gpt-3.5-turbo]. *)
Definition defaultClient : ChatOpenAI :=
  {| modelName := "gpt-3.5-turbo-0125"; temperature := 0%Q; streaming := true |}.

(** agent/tools.ts: the search tool and the calculator, by name. *)
Definition tools : list string := ["duckduckgo-search"; "calculator"].

(** The graph state: [messages] grows by concatenation, [safety] holds the
    last assessment written. *)
Record GraphState := {
  messages : list BaseMessage;
  safety : option LlamaGuardOutput;
  is_last_step : option bool
}.

Definition emptyState : GraphState :=
  {| messages := []; safety := None; is_last_step := None |}.

(** What a node returns: the channels it writes. *)
Record Update := {
  u_messages : option (list BaseMessage);
  u_safety : option LlamaGuardOutput
}.

(** The channel reducers: [(x, y) => x.concat(y)] for [messages], last value
    for [safety]. *)
Definition applyUpdate (state : GraphState) (u : Update) : GraphState :=
  {| messages := match u_messages u with
                 | Some y => messages state ++ y
                 | None => messages state
                 end;
     safety := match u_safety u with
               | Some s => Some s
               | None => safety state
               end;
     is_last_step := is_last_step state |}.

Definition llamaGuard (P : Providers) : LlamaGuard.t :=
  LlamaGuard.new (GROQ_API_KEY P).

Definition guardInput (P : Providers) (state : GraphState) : M Update :=
  safety <- LlamaGuard.invoke P (llamaGuard P) "User" (messages state) ;;
  ret {| u_messages := None; u_safety := Some safety |}.

(** [state.safety?.unsafe_categories.join(", ")] inside the template: the
    text [undefined] when no assessment is in the state. *)
Definition blockUnsafeContent (state : GraphState) : M Update :=
  ret {| u_messages :=
           Some [newAIMessage
                   ("This conversation was flagged for unsafe content: " +:+
                    match safety state with
                    | Some s => joinCategories (unsafe_categories s)
                    | None => "undefined"
                    end)];
         u_safety := None |}.

Definition modelNode (P : Providers) (state : GraphState)
    (config : RunnableConfig) : M Update :=
  match models !! "gpt-3.5-turbo" with
  | None =>
      throw {| err_name := "TypeError";
               err_message := "Cannot read properties of undefined (reading 'bindTools')" |}
  | Some model =>
      let msgs := newSystemMessage (instructions P) :: messages state in
      response <- complete P {| mc_client := model; mc_tools := tools;
                                mc_messages := msgs; mc_config := config |} ;;
      safetyOutput <- LlamaGuard.invoke P (llamaGuard P) "Agent"
                        (messages state ++ [chunkOf response]) ;;
      if SafetyAssessment_eqb (safety_assessment safetyOutput) UNSAFE then
        ret {| u_messages :=
                 Some [newAIMessage
                         ("This response was flagged for unsafe content: " +:+
                          joinCategories (unsafe_categories safetyOutput))];
               u_safety := Some safetyOutput |}
      else
        ret {| u_messages := Some [chunkOf response]; u_safety := None |}
  end.

Definition guardInputCondition (state : GraphState) : string :=
  match safety state with
  | Some s =>
      if SafetyAssessment_eqb (safety_assessment s) UNSAFE then "unsafe" else "safe"
  | None => "safe"
  end.

Definition hasToolCalls (m : BaseMessage) : bool :=
  match tool_calls m with
  | Some (_ :: _) => true
  | Some [] | None => false
  end.

(** With no message at all, reading the constructor of [undefined] is a
    type error as well. *)
Definition modelCondition (state : GraphState) : Result string :=
  match last (messages state) with
  | None =>
      Throw {| err_name := "TypeError";
               err_message := "Cannot read properties of undefined (reading 'constructor')" |}
  | Some lastMessage =>
      if negb (instanceof lastMessage AIMessage)
         && negb (instanceof lastMessage AIMessageChunk) then
        Throw {| err_name := "TypeError";
                 err_message := "Expected AIMessage or AIMessageChunk, got "
                                +:+ className (class lastMessage) |}
      else if hasToolCalls lastMessage then Ok "tools"
      else Ok "done"
  end.

(** *** The workflow: nodes, edges and the loop that executes them

    The nodes and edges are those [createResearchAssistant] wires.  The loop
    is the graph framework's, which is not part of the repository: it runs
    one node per step from the entry point, applies the node's update through
    the channel reducers, reads the outgoing edge on the updated state,
    publishes a start event and end events per node, all attributed to the
    node, and checkpoints the state per thread.  Of the events only those
    the service reads are modelled in full: the end events, with their
    output, and the streamed chunks of the providers. *)

Inductive Node := guard_input | block_unsafe_content | model | tools_node.

Definition nodeName (n : Node) : string :=
  match n with
  | guard_input => "guard_input"
  | block_unsafe_content => "block_unsafe_content"
  | model => "model"
  | tools_node => "tools"
  end.

(** [addEdge(START, "guard_input")] *)
Definition entryPoint : Node := guard_input.

Definition nodeAction (P : Providers) (config : RunnableConfig) (n : Node)
    (state : GraphState) : M Update :=
  match n with
  | guard_input => guardInput P state
  | block_unsafe_content => blockUnsafeContent state
  | model => modelNode P state config
  | tools_node =>
      results <- runTools P (messages state) ;;
      ret {| u_messages := Some results; u_safety := None |}
  end.

(** The edges out of a node, read on the state the node has just written;
    [None] is [END]. *)
Definition nextNode (n : Node) (state : GraphState) : Result (option Node) :=
  match n with
  | guard_input =>
      if String.eqb (guardInputCondition state) "unsafe"
      then Ok (Some block_unsafe_content)
      else Ok (Some model)
  | block_unsafe_content => Ok None
  | model =>
      match modelCondition state with
      | Ok path => if String.eqb path "tools" then Ok (Some tools_node) else Ok None
      | Throw e => Throw e
      end
  | tools_node => Ok (Some model)
  end.

Definition chainEvent (kind : string) (n : Node) (out : option OutputView) : StreamEvent :=
  {| event := kind; name := nodeName n; langgraph_node := Some (nodeName n);
     tags := Some []; data_output := out; data_chunk := None |}.

(** The end event of a run traced inside the node [n]: it inherits the
    node's metadata, and carries the node's update when the run's output is
    the update. *)
Definition innerEvent (n : Node) (u : Update) (traced_run : string * bool) : StreamEvent :=
  {| event := "on_chain_end"; name := fst traced_run;
     langgraph_node := Some (nodeName n); tags := Some [];
     data_output :=
       Some {| out_messages := if snd traced_run then u_messages u else None |};
     data_chunk := None |}.

(** One step of the graph: run the node, publish its start event and the end
    events of the runs inside it and of the node itself, write its update and
    choose the edge. *)
Definition step (P : Providers) (config : RunnableConfig) (n : Node)
    (state : GraphState) : M (GraphState * option Node) :=
  _ <- enter (nodeName n) ;;
  _ <- publish [chainEvent "on_chain_start" n None] ;;
  u <- nodeAction P config n state ;;
  _ <- publish (map (innerEvent n u) (traced P (nodeName n))
                ++ [chainEvent "on_chain_end" n
                      (Some {| out_messages := u_messages u |})]) ;;
  let state' := applyUpdate state u in
  target <- lift (nextNode n state') ;;
  ret (state', target).

Definition budgetError (P : Providers) : JsError :=
  {| err_name := "GraphRecursionError"; err_message := budget_message P |}.

(** The run loop.  The state that comes back is the state after the last
    completed step, which is what the checkpointer holds; a step that throws
    writes nothing.  The step budget ([recursionLimit], 25 unless the caller
    sets it) ends the run with an error when it is used up, and the end must
    be reached with budget to spare: a run that reaches [END] on its last
    unit of budget fails with the same error, its state kept. *)
Fixpoint run (P : Providers) (config : RunnableConfig) (recursionLimit : nat)
    (n : Node) (state : GraphState) (w : World) : Result unit * GraphState * World :=
  match recursionLimit with
  | O => (Throw (budgetError P), state, w)
  | S budget =>
      match step P config n state w with
      | (Ok (state', Some n'), w') => run P config budget n' state' w'
      | (Ok (state', None), w') =>
          match budget with
          | O => (Throw (budgetError P), state', w')
          | S _ => (Ok tt, state', w')
          end
      | (Throw e, w') => (Throw e, state, w')
      end
  end.

Definition defaultRecursionLimit : nat := 25.

Definition rootEvent (kind : string) (out : option OutputView) : StreamEvent :=
  {| event := kind; name := "LangGraph"; langgraph_node := None;
     tags := Some []; data_output := out; data_chunk := None |}.

(** The state a turn starts from: the thread's stored state, or the empty
    one, with the input messages appended. *)
Definition turnStart (store : gmap string GraphState) (input : list BaseMessage)
    (config : RunnableConfig) : GraphState :=
  applyUpdate (default emptyState (store !! thread_id config))
    {| u_messages := Some input; u_safety := None |}.

(** One turn on a thread.  The checkpointer holds one state per thread id:
    load the thread's state, append the input messages, run the graph from
    its entry point, store the state reached. *)
Definition turn (P : Providers) (recursionLimit : nat)
    (store : gmap string GraphState) (input : list BaseMessage)
    (config : RunnableConfig) (w : World)
    : Result GraphState * gmap string GraphState * World :=
  let state0 := turnStart store input config in
  let '(_, w0) := publish [rootEvent "on_chain_start" None] w in
  match run P config recursionLimit entryPoint state0 w0 with
  | (Ok _, final, w') =>
      let '(_, w'') :=
        publish [rootEvent "on_chain_end"
                   (Some {| out_messages := Some (messages final) |})] w' in
      (Ok final, <[thread_id config := final]> store, w'')
  | (Throw e, final, w') =>
      (Throw e, <[thread_id config := final]> store, w')
  end.

End Agent.

(** ** schema/schema.ts *)

Module Schema.
Import Msg Runtime.

(** The text pushed for one item of a content array: strings as they are,
    the [text] of objects of type [text], nothing for the rest.  An absent
    [text] is pushed as [undefined], which [join] turns into nothing. *)
Definition itemText (i : ContentItem) : string :=
  match i with
  | ItemString s => s
  | ItemObject type text =>
      if String.eqb type "text" then default "" text else ""
  end.

Definition convertMessageContentToString (content : MessageContent) : string :=
  match content with
  | Text s => s
  | Parts items => Js.join "" (map itemText items)
  end.

Record UserInput := {
  message : string;
  model : option string;
  thread_id : option string
}.

Record StreamInput := {
  user : UserInput;
  stream_tokens : bool
}.

Record ChatMessage := {
  type : string;
  content : string;
  tool_calls : list ToolCall;
  tool_call_id : option string;
  run_id : option string;
  original : BaseMessage
}.

Definition fromLangChain (message : BaseMessage) : Result ChatMessage :=
  let original := message in
  if instanceof message HumanMessage then
    Ok {| type := "human";
          content := convertMessageContentToString (Msg.content message);
          tool_calls := []; tool_call_id := None; run_id := None;
          original := original |}
  else if instanceof message AIMessage || instanceof message AIMessageChunk then
    Ok {| type := "ai";
          content := convertMessageContentToString (Msg.content message);
          tool_calls := default [] (Msg.tool_calls message);
          tool_call_id := None; run_id := None;
          original := original |}
  else if instanceof message ToolMessage then
    Ok {| type := "tool";
          content := convertMessageContentToString (Msg.content message);
          tool_calls := []; tool_call_id := Msg.tool_call_id message;
          run_id := None;
          original := original |}
  else
    Throw {| err_name := "Error";
             err_message := "Unsupported message type: "
                            +:+ className (class message) |}.

Definition withRunId (m : ChatMessage) (runId : string) : ChatMessage :=
  {| type := type m; content := content m; tool_calls := tool_calls m;
     tool_call_id := tool_call_id m; run_id := Some runId;
     original := original m |}.

End Schema.

(** ** service/service.ts *)

Module Service.
Import Msg Runtime LlamaGuard Agent Schema.

(** [a || b] on an optional string: the empty string is falsy. *)
Definition orElse (a : option string) (b : string) : string :=
  match a with
  | Some (String c r) => String c r
  | Some EmptyString | None => b
  end.

(** [parseInput], with the generator of fresh identifiers made explicit:
    [uuidv4 n] is what its [n]-th call returns.  The second call is made
    only when the request carries no thread id. *)
Definition parseInput (uuidv4 : nat -> string) (userInput : UserInput)
    : (list BaseMessage * RunnableConfig) * string :=
  let runId := uuidv4 0 in
  let threadId := orElse (Schema.thread_id userInput) (uuidv4 1) in
  let inputMessage := newHumanMessage (message userInput) in
  (([inputMessage],
    {| Runtime.thread_id := threadId;
       cfg_model := orElse (Schema.model userInput) "gpt-4";
       runId := runId |}),
   runId).

Definition isToolItem (i : ContentItem) : bool :=
  match i with
  | ItemString _ => false
  | ItemObject type _ => String.eqb type "tool"
  end.

Definition removeToolCalls (content : MessageContent) : MessageContent :=
  match content with
  | Text s => Text s
  | Parts items => Parts (List.filter (fun item => negb (isToolItem item)) items)
  end.

(** What the generator yields.  Each chunk is a [data:] line carrying the
    JSON text of a record with a [type] and a [content]; the record is kept
    here, and the closing [data: [DONE]] line is [SseDone]. *)
Inductive SseEvent :=
| SseMessage (m : ChatMessage)
| SseToken (text : string)
| SseError (text : string)
| SseDone.

Definition errorToString (e : JsError) : string :=
  err_name e +:+ ": " +:+ err_message e.

(** The body of the loop over [newMessages], for one message. *)
Definition relayMessage (userInput : StreamInput) (runId : string)
    (m : BaseMessage) : list SseEvent :=
  match fromLangChain m with
  | Ok chatMessage0 =>
      let chatMessage := withRunId chatMessage0 runId in
      if String.eqb (type chatMessage) "human"
         && String.eqb (Schema.content chatMessage) (message (user userInput))
      then []
      else [SseMessage chatMessage]
  | Throw e => [SseError ("Error parsing message: " +:+ errorToString e)]
  end.

Definition fromNode (ev : StreamEvent) (node : string) : bool :=
  match langgraph_node ev with
  | Some n => String.eqb n node
  | None => false
  end.

(** The first [if] of the loop body.  Reading [messages] of an absent
    output throws. *)
Definition relayStep (userInput : StreamInput) (runId : string)
    (ev : StreamEvent) : Result (list SseEvent) :=
  if String.eqb (event ev) "on_chain_end"
     && (fromNode ev "model" || fromNode ev "tools") then
    match data_output ev with
    | None =>
        Throw {| err_name := "TypeError";
                 err_message := "Cannot read properties of undefined (reading 'messages')" |}
    | Some out =>
        match out_messages out with
        | Some newMessages => Ok (flat_map (relayMessage userInput runId) newMessages)
        | None => Ok []
        end
    end
  else Ok [].

Definition includesTag (ev : StreamEvent) (tag : string) : bool :=
  match tags ev with
  | Some ts => existsb (String.eqb tag) ts
  | None => false
  end.

(** The second [if] of the loop body. *)
Definition relayToken (userInput : StreamInput) (ev : StreamEvent)
    : Result (list SseEvent) :=
  if String.eqb (event ev) "on_chat_model_stream"
     && stream_tokens userInput
     && negb (includesTag ev "llama_guard") then
    match data_chunk ev with
    | None =>
        Throw {| err_name := "TypeError";
                 err_message := "Cannot read properties of undefined (reading 'content')" |}
    | Some chunk =>
        match removeToolCalls chunk with
        | Text content =>
            if negb (Js.isEmpty (Js.trim content)) then Ok [SseToken content]
            else Ok []
        | Parts _ => Ok []
        end
    end
  else Ok [].

(** The loop of [messageGenerator] over the events of the run.  [failure]
    is the error the event source ends with when the run itself fails.  The
    result is what was yielded, and the error if the generator threw. *)
Fixpoint relay (userInput : StreamInput) (runId : string)
    (evs : list (option StreamEvent)) (failure : option JsError)
    : list SseEvent * option JsError :=
  match evs with
  | [] =>
      match failure with
      | None => ([SseDone], None)
      | Some e => ([], Some e)
      end
  | None :: rest => relay userInput runId rest failure
  | Some ev :: rest =>
      match relayStep userInput runId ev with
      | Throw e => ([], Some e)
      | Ok out1 =>
          match relayToken userInput ev with
          | Throw e => (out1, Some e)
          | Ok out2 =>
              let '(outs, err) := relay userInput runId rest failure in
              (out1 ++ out2 ++ outs, err)
          end
      end
  end.

Definition failureOf {A} (r : Result A) : option JsError :=
  match r with
  | Ok _ => None
  | Throw e => Some e
  end.

(** [messageGenerator]: parse the input, run the turn, relay its events. *)
Definition messageGenerator (P : Providers) (uuidv4 : nat -> string)
    (recursionLimit : nat) (store : gmap string GraphState)
    (userInput : StreamInput) (w : World)
    : (list SseEvent * option JsError) * gmap string GraphState * World :=
  let '((input, config), runId) := parseInput uuidv4 (user userInput) in
  let '(result, store', w') := turn P recursionLimit store input config w in
  (relay userInput runId
     (map Some (drop (List.length (events w)) (events w')))
     (failureOf result),
   store', w').

(** [POST /stream]: the chunks written to the response; a generator that
    throws is reported by one more error chunk. *)
Definition stream (P : Providers) (uuidv4 : nat -> string)
    (recursionLimit : nat) (store : gmap string GraphState)
    (userInput : StreamInput) (w : World) : list SseEvent :=
  match messageGenerator P uuidv4 recursionLimit store userInput w with
  | ((chunks, None), _, _) => chunks
  | ((chunks, Some e), _, _) => chunks ++ [SseError (err_message e)]
  end.

(** [POST /invoke]: the reply, or the message of the error. *)
Record InvokeOutput := {
  o_type : string;
  o_content : MessageContent;
  o_run_id : string
}.

Definition invoke (P : Providers) (uuidv4 : nat -> string)
    (recursionLimit : nat) (store : gmap string GraphState)
    (userInput : UserInput) (w : World)
    : Result InvokeOutput * gmap string GraphState * World :=
  let '((input, config), runId) := parseInput uuidv4 userInput in
  let '(result, store', w') := turn P recursionLimit store input config w in
  (match result with
   | Ok final =>
       match last (messages final) with
       | Some lastMessage =>
           Ok {| o_type := "ai"; o_content := Msg.content lastMessage;
                 o_run_id := runId |}
       | None =>
           Throw {| err_name := "TypeError";
                    err_message := "Cannot read properties of undefined (reading 'content')" |}
       end
   | Throw e => Throw e
   end, store', w').

(** [POST /history] *)
Record HistoryMessage := {
  h_type : string;
  h_content : MessageContent
}.

Definition historyEntry (m : BaseMessage) : HistoryMessage :=
  {| h_type := if instanceof m HumanMessage then "human" else "ai";
     h_content := Msg.content m |}.

(** A thread without a checkpoint has no [messages] to map over. *)
Definition history (store : gmap string GraphState) (thread : string)
    : Result (list HistoryMessage) :=
  match store !! thread with
  | Some state => Ok (map historyEntry (messages state))
  | None =>
      Throw {| err_name := "TypeError";
               err_message := "Cannot read properties of undefined (reading 'map')" |}
  end.

End Service.

(** ** Vocabulary of the statements *)

Module Vocabulary.
Import Msg Runtime LlamaGuard Agent Schema Service.

Definition errorOutput : LlamaGuardOutput :=
  {| safety_assessment := ERROR; unsafe_categories := [] |}.

Definition safeOutput : LlamaGuardOutput :=
  {| safety_assessment := SAFE; unsafe_categories := [] |}.

(** The first line of a reply, and the number of its lines. *)
Definition firstLine (output : string) : string :=
  nth 0 (Js.split Js.LF output) "".

Definition lineCount (output : string) : nat :=
  List.length (Js.split Js.LF output).

(** The request the Model step sends when the registry gives it
    [defaultClient]: that client with the tools bound, and the system
    instruction followed by the whole history. *)
Definition modelCall (P : Providers) (state : GraphState)
    (config : RunnableConfig) : ModelCall :=
  {| mc_client := defaultClient;
     mc_tools := tools;
     mc_messages := newSystemMessage (instructions P) :: messages state;
     mc_config := config |}.

(** The message the Model step puts in place of a flagged response. *)
Definition flaggedResponse (safetyOutput : LlamaGuardOutput) : BaseMessage :=
  newAIMessage
    ("This response was flagged for unsafe content: " +:+
     joinCategories (unsafe_categories safetyOutput)).

(** What screening the model's response gives, for a response [response]
    to the state [state]. *)
Definition agentScreening (P : Providers) (state : GraphState)
    (response : AIResponse) (w : World) : Result LlamaGuardOutput :=
  fst (LlamaGuard.invoke P (llamaGuard P) "Agent"
         (Agent.messages state ++ [chunkOf response]) w).

(** A computation keeps a relation between the world before and after. *)
Definition respects (R : World -> World -> Prop) {A} (m : M A) : Prop :=
  forall w, R w (snd (m w)).

Definition sameSteps (w w' : World) : Prop := steps w' = steps w.

Definition stepsExtend (w w' : World) : Prop :=
  exists trace, steps w' = steps w ++ trace.

(** The model requests added between two worlds all go through the default
    client. *)
Definition usesDefaultClient (w w' : World) : Prop :=
  exists calls,
    model_requests w' = model_requests w ++ calls
    /\ Forall (fun c => mc_client c = defaultClient) calls.

(** An event the relay passes over: it is not attributed to the Model or
    the Tools node, and if it is a streamed chunk it carries the classifier's
    tag. *)
Definition quietEvent (ev : StreamEvent) : Prop :=
  fromNode ev "model" = false
  /\ fromNode ev "tools" = false
  /\ (String.eqb (event ev) "on_chat_model_stream" = true ->
      includesTag ev "llama_guard" = true).

(** The same request with another model selection. *)
Definition withModel (u : UserInput) (m : option string) : UserInput :=
  {| message := message u; model := m; Schema.thread_id := Schema.thread_id u |}.

End Vocabulary.

(** ** Concrete scenarios *)

Module Scenarios.
Import Msg Runtime LlamaGuard Agent Schema Service Vocabulary.

(** Replies of the classifier. *)
Definition unsafeReply : string := "unsafe" +:+ Js.nl +:+ "S1".
Definition safeThenMore : string := "safe" +:+ Js.nl +:+ "S1".
Definition unknownCode : string := "unsafe" +:+ Js.nl +:+ "S99".

Definition hello : AIResponse :=
  {| r_content := Text "Hello!"; r_tool_calls := [] |}.

(** A framework that traces, inside every node, the node's function (whose
    output is the update) and the edge condition (whose output is not). *)
Definition tracedRuns (node : string) : list (string * bool) :=
  [("RunnableLambda", true); ("Branch", false)].

Definition budgetText : string :=
  "Recursion limit reached without hitting a stop condition.".

(** A classifier that flags everything, in front of a model that greets. *)
Definition flagging : Providers :=
  {| GROQ_API_KEY := Some "gsk";
     groq := fun _ _ => Ok unsafeReply;
     groq_stream := fun _ _ => [Text "unsafe"; Text Js.nl; Text "S1"];
     openai := fun _ _ => Ok hello;
     openai_stream := fun _ _ => [Text "Hello"; Text "!"];
     toolNode := fun _ _ => Ok [];
     instructions := "You are a helpful research assistant.";
     traced := tracedRuns;
     budget_message := budgetText |}.

(** A classifier that passes everything. *)
Definition permissive : Providers :=
  {| GROQ_API_KEY := Some "gsk";
     groq := fun _ _ => Ok "safe";
     groq_stream := fun _ _ => [Text "safe"];
     openai := fun _ _ => Ok hello;
     openai_stream := fun _ _ => [Text "Hello"; Text "!"];
     toolNode := fun _ _ => Ok [];
     instructions := "You are a helpful research assistant.";
     traced := tracedRuns;
     budget_message := budgetText |}.

(** No credential: the classifier is never asked. *)
Definition unconfigured : Providers :=
  {| GROQ_API_KEY := None;
     groq := fun _ _ => Ok unsafeReply;
     groq_stream := fun _ _ => [];
     openai := fun _ _ => Ok hello;
     openai_stream := fun _ _ => [Text "Hello"; Text "!"];
     toolNode := fun _ _ => Ok [];
     instructions := "You are a helpful research assistant.";
     traced := tracedRuns;
     budget_message := budgetText |}.

(** The calculator round: the model first asks for the calculator, the tool
    node answers 4, the model then gives its final answer. *)
Definition calculatorCall : ToolCall :=
  {| tc_name := "calculator"; tc_args := "2+2"; tc_id := Some "call_1" |}.

Definition calculatorResult : BaseMessage :=
  {| class := ToolMessage; Msg.content := Text "4";
     Msg.tool_calls := None; Msg.tool_call_id := Some "call_1" |}.

Definition calculating : Providers :=
  {| GROQ_API_KEY := None;
     groq := fun _ _ => Ok "safe";
     groq_stream := fun _ _ => [];
     openai := fun n _ =>
       match n with
       | O => Ok {| r_content := Text ""; r_tool_calls := [calculatorCall] |}
       | S _ => Ok {| r_content := Text "2+2 is 4"; r_tool_calls := [] |}
       end;
     openai_stream := fun _ _ => [];
     toolNode := fun _ _ => Ok [calculatorResult];
     instructions := "You are a helpful research assistant.";
     traced := tracedRuns;
     budget_message := budgetText |}.

Definition uuids (n : nat) : string :=
  match n with
  | O => "run-0"
  | S _ => "thread-0"
  end.

Definition greeting : UserInput :=
  {| message := "hi"; model := None; Schema.thread_id := Some "t1" |}.

Definition sum : UserInput :=
  {| message := "What is 2+2?"; model := Some "gpt-4";
     Schema.thread_id := Some "t2" |}.

Definition streamed (u : UserInput) : StreamInput :=
  {| user := u; stream_tokens := true |}.

Definition greetingConfig : RunnableConfig :=
  snd (fst (parseInput uuids greeting)).

Definition afterGreeting : GraphState :=
  turnStart ∅ [newHumanMessage "hi"] greetingConfig.

(** The thread store after the calculator round. *)
Definition afterSum : gmap string GraphState :=
  snd (fst (Service.invoke calculating uuids defaultRecursionLimit ∅ sum emptyWorld)).

(** A state whose last message asks for a tool, and one that ends with the
    caller's message. *)
Definition askingForTool : GraphState :=
  {| messages := [newHumanMessage "What is 2+2?";
                  chunkOf {| r_content := Text ""; r_tool_calls := [calculatorCall] |}];
     safety := None; is_last_step := None |}.

Definition flaggedVerdict : LlamaGuardOutput :=
  {| safety_assessment := UNSAFE; unsafe_categories := [Label "Violent Crimes"] |}.

(** The greeting, through the flagging classifier. *)
Definition flaggedTurn :=
  turn flagging defaultRecursionLimit ∅ [newHumanMessage "hi"] greetingConfig
    emptyWorld.

Definition echo : BaseMessage := newHumanMessage "hi".
Definition otherHuman : BaseMessage := newHumanMessage "hello there".

End Scenarios.

(** ** Further vocabulary: the rest of the sources *)

Module Coverage.
Import Msg Runtime LlamaGuard Agent Schema Service Vocabulary Scenarios.

(** The second line of a reply. *)
Definition secondLine (output : string) : string :=
  nth 1 (Js.split Js.LF output) "".

(** The messages [compilePrompt] keeps, and the transcript it builds from
    them (its [messagesStr]). *)
Definition inDialogue (m : BaseMessage) : bool :=
  String.eqb (getType m) "ai" || String.eqb (getType m) "human".

Definition transcript (messages : list BaseMessage) : string :=
  Js.join (Js.nl +:+ Js.nl)
    (map (fun m => roleMapping (getType m) +:+ ": " +:+ contentToString (Msg.content m))
       (List.filter (fun m => String.eqb (getType m) "ai" || String.eqb (getType m) "human")
          messages)).

(** The instructions before and after the transcript, once the first
    placeholder holds the role. *)
Definition promptHead (role : string) : string :=
  Js.nl +:+
  "Task: Check if there is unsafe content in '" +:+ role +:+
  "' messages in conversations according to our safety policy with the below categories."
  +:+ Js.nl +:+ Js.nl +:+
  "<BEGIN UNSAFE CONTENT CATEGORIES>" +:+ Js.nl +:+
  categoriesStr +:+ Js.nl +:+
  "<END UNSAFE CONTENT CATEGORIES>" +:+ Js.nl +:+ Js.nl +:+
  "<BEGIN CONVERSATION>" +:+ Js.nl +:+ Js.nl.

Definition promptTail : string :=
  Js.nl +:+ Js.nl +:+
  "<END CONVERSATION>" +:+ Js.nl +:+ Js.nl +:+
  "Provide your safety assessment for ONLY THE LAST {role} in the above conversation:"
  +:+ Js.nl +:+
  "- First line must read 'safe' or 'unsafe'." +:+ Js.nl +:+
  "- If unsafe, a second line must include a comma-separated list of violated categories.".

(** An assistant message, plain or chunk. *)
Definition isAssistant (m : BaseMessage) : Prop :=
  class m = AIMessage \/ class m = AIMessageChunk.

(** The classes [fromLangChain] maps. *)
Definition supported (m : BaseMessage) : bool :=
  match class m with
  | HumanMessage | AIMessage | AIMessageChunk | ToolMessage => true
  | _ => false
  end.

(** The edges [createResearchAssistant] adds, by node name. *)
Definition edge (a b : string) : bool :=
  (String.eqb a "guard_input" && String.eqb b "block_unsafe_content")
  || (String.eqb a "guard_input" && String.eqb b "model")
  || (String.eqb a "model" && String.eqb b "tools")
  || (String.eqb a "tools" && String.eqb b "model").

(** [chain a trace]: [trace] continues a path that has reached [a], one edge
    at a time. *)
Fixpoint chain (a : string) (trace : list string) : bool :=
  match trace with
  | [] => true
  | b :: rest => edge a b && chain b rest
  end.

(** A state in which no UNSAFE assessment is recorded. *)
Definition calm (state : GraphState) : Prop :=
  forall v, safety state = Some v -> safety_assessment v <> UNSAFE.

(** The classification requests only grow between two worlds. *)
Definition requestsExtend (w w' : World) : Prop :=
  exists more, guard_requests w' = guard_requests w ++ more.

(** The synthetic messages of the two screening steps. *)
Definition blockMessage (v : LlamaGuardOutput) : BaseMessage :=
  newAIMessage
    ("This conversation was flagged for unsafe content: " +:+
     joinCategories (unsafe_categories v)).

(** A chunk of streamed text, as the chat model publishes it. *)
Definition textChunk (tgs : list string) (text : string) : StreamEvent :=
  streamChunk "ChatOpenAI" (Some "model") tgs (Text text).

(** Scenario data. *)
Definition toolNote : BaseMessage :=
  {| class := ToolMessage; Msg.content := Text "4";
     Msg.tool_calls := None; Msg.tool_call_id := Some "call_1" |}.

Definition systemNote : BaseMessage := newSystemMessage "be brief".

Definition mixedContent : list ContentItem :=
  [ItemString "a"; ItemObject "tool" None; ItemObject "text" (Some "b")].

(** A model that cannot be reached. *)
Definition offline : Providers :=
  {| GROQ_API_KEY := Some "gsk";
     groq := fun _ _ => Ok "safe";
     groq_stream := fun _ _ => [];
     openai := fun _ _ =>
       Throw {| err_name := "Error"; err_message := "Connection error." |};
     openai_stream := fun _ _ => [];
     toolNode := fun _ _ => Ok [];
     instructions := "You are a helpful research assistant.";
     traced := tracedRuns;
     budget_message := budgetText |}.

End Coverage.

(** * Verification *)

(** ** Facts about the string primitives *)

Module JsFacts.
Import Js.

Lemma split_nonempty sep s : split sep s <> [].
Proof.
  induction s as [|a r IH]; simpl; [discriminate|].
  destruct (Ascii.eqb a sep); [discriminate|].
  destruct (split sep r); discriminate.
Qed.

(** A string without the separator is a single piece. *)
Lemma split_without_separator sep s :
  contains sep s = false -> split sep s = [s].
Proof.
  induction s as [|a r IH]; simpl; intros H; [reflexivity|].
  apply orb_false_iff in H as [Ha Hr].
  rewrite Ha, (IH Hr). reflexivity.
Qed.

End JsFacts.

(** ** The classifier's reply parser *)

Module LlamaGuardFacts.
Import Msg Runtime LlamaGuard JsFacts Vocabulary.

Lemma parse_safe : parseLlamaGuardOutput "safe" = safeOutput.
Proof. reflexivity. Qed.

(** A reply of two lines starting with [unsafe] is read as UNSAFE, whatever
    its second line holds. *)
Lemma parse_unsafe_line (line : string) :
  Js.contains Js.LF line = false ->
  parseLlamaGuardOutput ("unsafe" +:+ Js.nl +:+ line)
  = {| safety_assessment := UNSAFE;
       unsafe_categories :=
         map (fun c => categoryAt (Js.trim c)) (Js.split Js.comma line) |}.
Proof.
  intros Hline. unfold parseLlamaGuardOutput.
  change ("unsafe" +:+ Js.nl +:+ line)
    with (String "u" (String "n" (String "s" (String "a" (String "f"
           (String "e" (String Js.LF line))))))).
  cbn [String.eqb Ascii.eqb Bool.eqb]. cbn [Js.split].
  change (Ascii.eqb "u" Js.LF) with false.
  change (Ascii.eqb "n" Js.LF) with false.
  change (Ascii.eqb "s" Js.LF) with false.
  change (Ascii.eqb "a" Js.LF) with false.
  change (Ascii.eqb "f" Js.LF) with false.
  change (Ascii.eqb "e" Js.LF) with false.
  rewrite Ascii.eqb_refl, (split_without_separator Hline).
  reflexivity.
Qed.

(** Any reply other than [safe] whose line count is not two is an ERROR. *)
Lemma parse_wrong_line_count (output : string) :
  output <> "safe" -> lineCount output <> 2 ->
  parseLlamaGuardOutput output = errorOutput.
Proof.
  intros Hs Hn. unfold parseLlamaGuardOutput.
  destruct (String.eqb output "safe") eqn:E.
  - apply String.eqb_eq in E. contradiction.
  - unfold lineCount in Hn. apply Nat.eqb_neq in Hn. rewrite Hn. reflexivity.
Qed.

(** Any reply whose first line is neither token is an ERROR. *)
Lemma parse_wrong_first_line (output : string) :
  firstLine output <> "safe" -> firstLine output <> "unsafe" ->
  parseLlamaGuardOutput output = errorOutput.
Proof.
  intros Hs Hu. unfold parseLlamaGuardOutput.
  destruct (String.eqb output "safe") eqn:E.
  - apply String.eqb_eq in E. subst output. exfalso. apply Hs. reflexivity.
  - unfold firstLine in Hu. apply String.eqb_neq in Hu. rewrite Hu.
    rewrite orb_true_r. reflexivity.
Qed.

(** An assessment other than SAFE always comes from the two-line form. *)
Lemma parse_unsafe_inv (output : string) :
  safety_assessment (parseLlamaGuardOutput output) = UNSAFE ->
  lineCount output = 2 /\ firstLine output = "unsafe".
Proof.
  unfold parseLlamaGuardOutput, lineCount, firstLine.
  destruct (String.eqb output "safe"); [discriminate|].
  destruct (Nat.eqb _ 2) eqn:En; [|discriminate].
  destruct (String.eqb _ "unsafe") eqn:Eu; [|discriminate].
  intros _. split; [now apply Nat.eqb_eq | now apply String.eqb_eq].
Qed.

End LlamaGuardFacts.

(** ** How the steps of the graph change the world *)

Module GraphFacts.
Import Msg Runtime LlamaGuard Agent Vocabulary.
Local Open Scope agent_scope.

Ltac unfold_monad :=
  unfold bind, ret, lift, throw, enter, publish, classify, complete, runTools in *.

Ltac unfold_nodes :=
  unfold step, nodeAction, guardInput, blockUnsafeContent, modelNode,
    LlamaGuard.invoke, llamaGuard, LlamaGuard.new in *.

(** The default model client is always there. *)
Lemma default_model_present :
  models !! "gpt-3.5-turbo" = Some defaultClient.
Proof. reflexivity. Qed.

(** The world a run with budget ends in: that of its first step, or of the
    rest of the run. *)
Lemma run_world P config budget n state w :
  snd (run P config (S budget) n state w)
  = match step P config n state w with
    | (Ok (state', Some n'), w') => snd (run P config budget n' state' w')
    | (Ok (_, None), w') => w'
    | (Throw _, w') => w'
    end.
Proof.
  simpl. destruct (step P config n state w) as [[[state' [n'|]]|e] w'];
    [reflexivity | destruct budget; reflexivity | reflexivity].
Qed.

(** *** Properties that every provider call and every publication keep *)

Section Respects.
Variable R : World -> World -> Prop.
Hypothesis R_refl : forall w, R w w.
Hypothesis R_trans : forall a b c, R a b -> R b c -> R a c.

Lemma respects_ret {A} (a : A) : respects R (ret a).
Proof. intros w. apply R_refl. Qed.

Lemma respects_throw {A} e : respects R (@throw A e).
Proof. intros w. apply R_refl. Qed.

Lemma respects_lift {A} (r : Result A) : respects R (lift r).
Proof. intros w. apply R_refl. Qed.

Lemma respects_bind {A B} (m : M A) (k : A -> M B) :
  respects R m -> (forall a, respects R (k a)) -> respects R (bind m k).
Proof.
  intros Hm Hk w. unfold respects in *. unfold bind. specialize (Hm w).
  destruct (m w) as [[a|e] w1]; simpl in *; [|exact Hm].
  eapply R_trans; [exact Hm | apply Hk].
Qed.

Hypothesis R_classify : forall P tgs prompt, respects R (classify P tgs prompt).
Hypothesis R_complete : forall P call,
  mc_client call = defaultClient -> respects R (complete P call).
Hypothesis R_tools : forall P msgs, respects R (runTools P msgs).
Hypothesis R_publish : forall evs, respects R (publish evs).

Lemma respects_invoke P g role msgs : respects R (LlamaGuard.invoke P g role msgs).
Proof.
  unfold LlamaGuard.invoke. destruct (LlamaGuard.model g).
  - apply respects_bind; [apply R_classify | intros; apply respects_ret].
  - apply respects_ret.
Qed.

Lemma respects_nodeAction P config n state :
  respects R (nodeAction P config n state).
Proof.
  destruct n; simpl.
  - apply respects_bind; [apply respects_invoke | intros; apply respects_ret].
  - apply respects_ret.
  - unfold modelNode. rewrite default_model_present.
    apply respects_bind; [apply R_complete; reflexivity|]. intros r.
    apply respects_bind; [apply respects_invoke|]. intros s.
    destruct (SafetyAssessment_eqb _ _); apply respects_ret.
  - apply respects_bind; [apply R_tools | intros; apply respects_ret].
Qed.

Hypothesis R_enter : forall node, respects R (enter node).

Lemma respects_step P config n state : respects R (step P config n state).
Proof.
  unfold step.
  apply respects_bind; [apply R_enter|]. intros _.
  apply respects_bind; [apply R_publish|]. intros _.
  apply respects_bind; [apply respects_nodeAction|]. intros u.
  apply respects_bind; [apply R_publish|]. intros _.
  apply respects_bind; [apply respects_lift | intros; apply respects_ret].
Qed.

Lemma respects_run P config limit n state w :
  R w (snd (run P config limit n state w)).
Proof.
  revert n state w. induction limit as [|k IH]; intros n state w.
  - simpl. apply R_refl.
  - rewrite run_world. pose proof (respects_step P config n state w) as Hs.
    destruct (step P config n state w) as [[[state' [n'|]]|e] w']; simpl in *.
    + eapply R_trans; [exact Hs | apply IH].
    + exact Hs.
    + exact Hs.
Qed.

End Respects.

(** *** Entering nodes *)

Lemma nodeAction_steps P config n state w :
  steps (snd (nodeAction P config n state w)) = steps w.
Proof.
  apply (@respects_nodeAction sameSteps); unfold sameSteps, respects;
    try reflexivity; try congruence.
Qed.

Lemma step_steps P config n state w :
  steps (snd (step P config n state w)) = steps w ++ [nodeName n].
Proof.
  unfold step, bind at 1 2. simpl.
  unfold bind at 1.
  match goal with
  | |- context [nodeAction P config n state ?w1] =>
      pose proof (nodeAction_steps P config n state w1) as Hs;
      destruct (nodeAction P config n state w1) as [[u|e] w2]
  end; simpl in *; [|exact Hs].
  unfold bind, publish, lift, ret; simpl.
  destruct (nextNode n (applyUpdate state u)); simpl; exact Hs.
Qed.

Lemma stepsExtend_refl w : stepsExtend w w.
Proof. exists []. now rewrite app_nil_r. Qed.

Lemma stepsExtend_trans a b c :
  stepsExtend a b -> stepsExtend b c -> stepsExtend a c.
Proof.
  intros [t1 H1] [t2 H2]. exists (t1 ++ t2).
  rewrite H2, H1. now rewrite app_assoc.
Qed.

Lemma run_steps_extend P config limit n state w :
  stepsExtend w (snd (run P config limit n state w)).
Proof.
  revert n state w. induction limit as [|k IH]; intros n state w.
  - simpl. apply stepsExtend_refl.
  - rewrite run_world. pose proof (step_steps P config n state w) as Hs.
    destruct (step P config n state w) as [[[state' [n'|]]|e] w']; simpl in *;
      try (eexists; exact Hs).
    eapply stepsExtend_trans; [eexists; exact Hs | apply IH].
Qed.

(** A run with some budget left enters its first node. *)
Lemma run_enters_first P config limit n state w :
  exists trace,
    steps (snd (run P config (S limit) n state w))
    = steps w ++ nodeName n :: trace.
Proof.
  rewrite run_world. pose proof (step_steps P config n state w) as Hs.
  destruct (step P config n state w) as [[[state' [n'|]]|e] w']; simpl in *;
    try (exists []; exact Hs).
  destruct (run_steps_extend P config limit n' state' w') as [t Ht].
  exists t. rewrite Ht, Hs, <- app_assoc. reflexivity.
Qed.

(** *** The input-screening step *)

Lemma guardInput_writes_safety P state w u :
  fst (guardInput P state w) = Ok u ->
  exists verdict, u = {| u_messages := None; u_safety := Some verdict |}.
Proof.
  unfold guardInput, LlamaGuard.invoke.
  destruct (LlamaGuard.model (llamaGuard P)); unfold_monad; simpl.
  - destruct (groq P _ _); simpl; intros H; [|discriminate].
    injection H as <-. eauto.
  - intros H. injection H as <-. eauto.
Qed.

(** What the screening step does when the screening itself completes: the
    verdict is written, the edge is chosen by it, the only events published
    are the start and the end events of the node and the classifier's own
    chunks, and no model request is sent. *)
Lemma step_guard_input P config state w u :
  fst (guardInput P state w) = Ok u ->
  exists w' chunks,
    step P config guard_input state w
    = (Ok (applyUpdate state u,
           Some (if String.eqb (guardInputCondition (applyUpdate state u)) "unsafe"
                 then block_unsafe_content else model)), w')
    /\ steps w' = steps w ++ ["guard_input"]
    /\ model_requests w' = model_requests w
    /\ events w'
       = events w
         ++ chainEvent "on_chain_start" guard_input None
            :: map (streamChunk "ChatGroq" (Some "guard_input") ["llama_guard"]) chunks
         ++ map (innerEvent guard_input u) (traced P "guard_input")
         ++ [chainEvent "on_chain_end" guard_input
               (Some {| out_messages := u_messages u |})].
Proof.
  unfold step, nodeAction, guardInput, LlamaGuard.invoke, llamaGuard, LlamaGuard.new.
  destruct (GROQ_API_KEY P) as [[|c key]|]; unfold_monad; simpl.
  - intros H. injection H as <-. eexists. exists []. simpl.
    repeat split; try reflexivity.
    rewrite <- app_assoc. reflexivity.
  - destruct (groq P (length (guard_requests w)) _) as [reply|e] eqn:Hg; simpl;
      intros H; [|discriminate].
    injection H as <-. eexists.
    exists (groq_stream P (length (guard_requests w))
              (compilePrompt "User" (messages state))).
    simpl.
    destruct (String.eqb _ "unsafe"); simpl;
      (repeat split; try reflexivity;
       rewrite last_snoc, <- !app_assoc; reflexivity).
  - intros H. injection H as <-. eexists. exists []. simpl.
    repeat split; try reflexivity.
    rewrite <- app_assoc. reflexivity.
Qed.

(** The blocking step: one synthetic message, then the end of the run. *)
Lemma step_block_unsafe_content P config state w :
  exists w' text,
    step P config block_unsafe_content state w
    = (Ok (applyUpdate state
             {| u_messages := Some [newAIMessage text]; u_safety := None |},
           None), w')
    /\ text = "This conversation was flagged for unsafe content: " +:+
              match safety state with
              | Some s => joinCategories (unsafe_categories s)
              | None => "undefined"
              end
    /\ steps w' = steps w ++ ["block_unsafe_content"]
    /\ model_requests w' = model_requests w
    /\ guard_requests w' = guard_requests w
    /\ events w'
       = events w
         ++ chainEvent "on_chain_start" block_unsafe_content None
            :: map (innerEvent block_unsafe_content
                      {| u_messages := Some [newAIMessage text]; u_safety := None |})
                 (traced P "block_unsafe_content")
         ++ [chainEvent "on_chain_end" block_unsafe_content
               (Some {| out_messages := Some [newAIMessage text] |})].
Proof.
  eexists. eexists. unfold step, nodeAction, blockUnsafeContent. unfold_monad.
  simpl. repeat split; try reflexivity.
  rewrite <- app_assoc. reflexivity.
Qed.

Lemma guardInput_fst_congr P state w1 w2 :
  guard_requests w1 = guard_requests w2 ->
  fst (guardInput P state w1) = fst (guardInput P state w2).
Proof.
  intros H. unfold guardInput, LlamaGuard.invoke.
  destruct (LlamaGuard.model (llamaGuard P)); unfold_monad; simpl; [|reflexivity].
  rewrite H. destruct (groq P _ _); reflexivity.
Qed.

Lemma guardInputCondition_written state u verdict :
  u_safety u = Some verdict ->
  guardInputCondition (applyUpdate state u)
  = if SafetyAssessment_eqb (safety_assessment verdict) UNSAFE
    then "unsafe" else "safe".
Proof.
  intros H. unfold guardInputCondition, applyUpdate. simpl. rewrite H. reflexivity.
Qed.

Lemma SafetyAssessment_eqb_eq a b : SafetyAssessment_eqb a b = true <-> a = b.
Proof. destruct a, b; simpl; split; congruence. Qed.

Lemma run_S P config budget n state w :
  run P config (S budget) n state w
  = match step P config n state w with
    | (Ok (state', Some n'), w') => run P config budget n' state' w'
    | (Ok (state', None), w') =>
        match budget with
        | O => (Throw (budgetError P), state', w')
        | S _ => (Ok tt, state', w')
        end
    | (Throw e, w') => (Throw e, state, w')
    end.
Proof. reflexivity. Qed.

(** The end must be reached with budget to spare: a run that spends its last
    unit of budget on the step that reaches [END] fails with the step-budget
    error, after the step was done and with the state the step left. *)
Lemma run_end_on_last_unit P config n state w state' w' :
  step P config n state w = (Ok (state', None), w') ->
  run P config 1 n state w = (Throw (budgetError P), state', w').
Proof. intros Hstep. rewrite run_S, Hstep. reflexivity. Qed.

Lemma turn_unfold P limit store input config w :
  turn P limit store input config w
  = match run P config limit entryPoint (turnStart store input config)
            (snd (publish [rootEvent "on_chain_start" None] w)) with
    | (Ok _, final, w') =>
        (Ok final, <[thread_id config := final]> store,
         snd (publish [rootEvent "on_chain_end"
                         (Some {| out_messages := Some (messages final) |})] w'))
    | (Throw e, final, w') =>
        (Throw e, <[thread_id config := final]> store, w')
    end.
Proof. reflexivity. Qed.

(** The world a turn ends in is the world its run ends in, up to the
    closing event. *)
Lemma turn_world P limit store input config w :
  steps (snd (turn P limit store input config w))
  = steps (snd (run P config limit entryPoint (turnStart store input config)
                  (snd (publish [rootEvent "on_chain_start" None] w))))
  /\ model_requests (snd (turn P limit store input config w))
     = model_requests
         (snd (run P config limit entryPoint (turnStart store input config)
                 (snd (publish [rootEvent "on_chain_start" None] w)))).
Proof.
  rewrite turn_unfold.
  destruct (run P config limit entryPoint _ _) as [[[[]|e] final] w']; simpl;
    split; reflexivity.
Qed.

(** A turn whose input is screened UNSAFE, spelled out: it ends normally
    after the screening and the blocking step, and every event it publishes
    comes from outside the Model and Tools nodes, the streamed chunks among
    them carrying the classifier's tag. *)
Lemma unsafe_turn P limit store input config w verdict :
  3 <= limit ->
  fst (guardInput P (turnStart store input config) w)
  = Ok {| u_messages := None; u_safety := Some verdict |} ->
  safety_assessment verdict = UNSAFE ->
  exists final w' evs,
    turn P limit store input config w
    = (Ok final, <[thread_id config := final]> store, w')
    /\ messages final
       = messages (turnStart store input config)
         ++ [newAIMessage
               ("This conversation was flagged for unsafe content: " +:+
                joinCategories (unsafe_categories verdict))]
    /\ steps w' = steps w ++ ["guard_input"; "block_unsafe_content"]
    /\ model_requests w' = model_requests w
    /\ events w' = events w ++ evs
    /\ Forall quietEvent evs.
Proof.
  intros Hlimit Hguard Hunsafe.
  destruct limit as [|[|[|k]]]; try lia.
  set (u := {| u_messages := None; u_safety := Some verdict |}) in *.
  set (st0 := turnStart store input config) in *.
  set (w0 := snd (publish [rootEvent "on_chain_start" None] w)).
  assert (Hguard0 : fst (guardInput P st0 w0) = Ok u).
  { rewrite <- Hguard. apply guardInput_fst_congr. reflexivity. }
  destruct (step_guard_input config Hguard0)
    as (w1 & chunks & Hstep & Hsteps1 & Hreq1 & Hev1).
  rewrite (@guardInputCondition_written st0 u verdict eq_refl) in Hstep.
  apply SafetyAssessment_eqb_eq in Hunsafe. rewrite Hunsafe in Hstep.
  simpl in Hstep.
  destruct (step_block_unsafe_content P config (applyUpdate st0 u) w1)
    as (w2 & text & Hblock & Htext & Hsteps2 & Hreq2 & _ & Hev2).
  rewrite turn_unfold. fold st0 w0.
  change entryPoint with guard_input.
  rewrite run_S, Hstep, run_S, Hblock.
  eexists. eexists. eexists. split; [reflexivity|].
  simpl in Htext. subst text.
  split; [reflexivity|]. split.
  { simpl. rewrite Hsteps2, Hsteps1. simpl. rewrite <- app_assoc. reflexivity. }
  split.
  { simpl. rewrite Hreq2, Hreq1. reflexivity. }
  split.
  { simpl. rewrite Hev2, Hev1. simpl. rewrite <- !app_assoc. simpl.
    rewrite <- !app_assoc. reflexivity. }
  repeat first [ apply Forall_app; split
               | constructor; [now compute|]
               | constructor ].
  all: apply Forall_forall; intros ev Hin; apply list_elem_of_In in Hin;
    apply in_map_iff in Hin as (c & <- & _); now compute.
Qed.

End GraphFacts.

(** ** C1: the verdict of input screening decides whether the model runs *)

Module InputScreening.
Import Msg Runtime LlamaGuard Agent Vocabulary GraphFacts.

(** C1.  For every turn with a step budget of at least three (two steps and
    the end reached with budget to spare; the service runs with the default
    of 25): when the input-screening step produces an UNSAFE assessment, the
    turn ends normally, the state stored for the thread is the state at the
    start of the turn extended by exactly one synthetic block message, the
    only nodes entered are the screening and the blocking node, and no model
    request is sent; when it produces any other assessment, the second node
    entered is the Model node. *)
Theorem guard_verdict_decides_model_step
    P limit store input config w u verdict result store' w' :
  3 <= limit ->
  fst (guardInput P (turnStart store input config) w) = Ok u ->
  u_safety u = Some verdict ->
  turn P limit store input config w = (result, store', w') ->
  (safety_assessment verdict = UNSAFE ->
     exists final,
       result = Ok final
       /\ store' !! thread_id config = Some final
       /\ messages final
          = messages (turnStart store input config)
            ++ [newAIMessage
                  ("This conversation was flagged for unsafe content: " +:+
                   joinCategories (unsafe_categories verdict))]
       /\ steps w' = steps w ++ ["guard_input"; "block_unsafe_content"]
       /\ model_requests w' = model_requests w)
  /\ (safety_assessment verdict <> UNSAFE ->
      exists trace, steps w' = steps w ++ "guard_input" :: "model" :: trace).
Proof.
  intros Hlimit Hguard Hsafety Hturn.
  destruct limit as [|[|[|k]]]; try lia.
  destruct (guardInput_writes_safety Hguard) as [v Hu]. subst u.
  simpl in Hsafety. injection Hsafety as ->.
  set (u := {| u_messages := None; u_safety := Some verdict |}) in *.
  set (st0 := turnStart store input config) in *.
  set (w0 := snd (publish [rootEvent "on_chain_start" None] w)).
  assert (Hguard0 : fst (guardInput P st0 w0) = Ok u).
  { rewrite <- Hguard. apply guardInput_fst_congr. reflexivity. }
  destruct (step_guard_input config Hguard0)
    as (w1 & chunks & Hstep & Hsteps1 & Hreq1 & Hev1).
  rewrite (@guardInputCondition_written st0 u verdict eq_refl) in Hstep.
  split.
  - intros Hunsafe.
    destruct (unsafe_turn Hlimit Hguard Hunsafe)
      as (final & w2 & evs & Ht & Hmsgs & Hsteps & Hreq & _).
    rewrite Ht in Hturn. injection Hturn as <- <- <-.
    exists final. split; [reflexivity|]. split; [apply lookup_insert_eq|].
    split; [exact Hmsgs|]. split; [exact Hsteps | exact Hreq].
  - intros Hother.
    destruct (SafetyAssessment_eqb (safety_assessment verdict) UNSAFE) eqn:E.
    { apply SafetyAssessment_eqb_eq in E. contradiction. }
    simpl in Hstep.
    destruct (turn_world P (S (S (S k))) store input config w) as [Hs _].
    rewrite Hturn in Hs. cbn [snd] in Hs. fold st0 w0 in Hs.
    change entryPoint with guard_input in Hs.
    rewrite run_S, Hstep in Hs.
    destruct (run_enters_first P config (S k) model (applyUpdate st0 u) w1)
      as [trace Ht].
    exists trace. rewrite Hs, Ht, Hsteps1, <- app_assoc. reflexivity.
Qed.

End InputScreening.

(** ** C2, C7, C8, C9: the Model step and the classifier's fallback *)

Module ModelStep.
Import Msg Runtime LlamaGuard Agent Vocabulary GraphFacts.
Local Open Scope agent_scope.

Lemma bind_Ok_inv {A B} (m : M A) (k : A -> M B) w b w' :
  bind m k w = (Ok b, w') ->
  exists a w1, m w = (Ok a, w1) /\ k a w1 = (Ok b, w').
Proof.
  unfold bind. destruct (m w) as [[a|e] w1]; intros H; [eauto | discriminate].
Qed.

Lemma invoke_fst_congr P g role msgs w1 w2 :
  guard_requests w1 = guard_requests w2 ->
  fst (LlamaGuard.invoke P g role msgs w1) = fst (LlamaGuard.invoke P g role msgs w2).
Proof.
  intros H. unfold LlamaGuard.invoke.
  destruct (LlamaGuard.model g); unfold_monad; simpl; [|reflexivity].
  rewrite H. destruct (groq P _ _); reflexivity.
Qed.

(** The Model step, unfolded on a completed model call. *)
Lemma modelNode_unfold P state config w response :
  openai P (length (model_requests w)) (modelCall P state config) = Ok response ->
  exists w1,
    guard_requests w1 = guard_requests w
    /\ modelNode P state config w
       = bind (LlamaGuard.invoke P (llamaGuard P) "Agent"
                 (messages state ++ [chunkOf response]))
           (fun safetyOutput =>
              if SafetyAssessment_eqb (safety_assessment safetyOutput) UNSAFE then
                ret {| u_messages := Some [flaggedResponse safetyOutput];
                       u_safety := Some safetyOutput |}
              else ret {| u_messages := Some [chunkOf response]; u_safety := None |})
           w1.
Proof.
  intros Hr. unfold modelNode. rewrite default_model_present.
  unfold bind at 1, complete. fold (modelCall P state config). rewrite Hr.
  eexists. split; [|reflexivity]. reflexivity.
Qed.

(** C2 (as amended).  In the Model step, when the screening of the model's
    response under the role Agent yields UNSAFE, the step appends exactly
    one message: a synthetic assistant message whose text is
    "This response was flagged for unsafe content: " followed by the
    category names joined with ", ".  The model's own response is not
    appended, and the assessment is written to the state. *)
Theorem flagged_response_replaced P state config w response verdict :
  openai P (length (model_requests w)) (modelCall P state config) = Ok response ->
  agentScreening P state response w = Ok verdict ->
  safety_assessment verdict = UNSAFE ->
  exists u w',
    modelNode P state config w = (Ok u, w')
    /\ u_messages u
       = Some [newAIMessage
                 ("This response was flagged for unsafe content: " +:+
                  Js.join ", " (map categoryText (unsafe_categories verdict)))]
    /\ ~ In (chunkOf response) (default [] (u_messages u))
    /\ messages (applyUpdate state u)
       = messages state ++ default [] (u_messages u)
    /\ u_safety u = Some verdict.
Proof.
  intros Hr Hv Hu.
  destruct (modelNode_unfold Hr) as (w1 & Hg & ->).
  unfold agentScreening in Hv.
  rewrite (invoke_fst_congr P (llamaGuard P) "Agent"
             (messages state ++ [chunkOf response]) (eq_sym Hg)) in Hv.
  unfold bind.
  destruct (LlamaGuard.invoke P (llamaGuard P) "Agent" _ w1) as [[v|e] w2];
    simpl in Hv; [|discriminate].
  injection Hv as ->. rewrite Hu. simpl.
  eexists. eexists. split; [reflexivity|]. simpl.
  repeat split; try reflexivity.
  intros [H|[]]. discriminate H.
Qed.

(** C7.  When no classifier credential is configured (the variable is not
    set, or is empty), every call of the classifier's [invoke], for any role
    and any messages, returns SAFE with no categories and leaves the world
    as it was, so no classification request is sent; and the
    input-screening step always routes the turn to the Model node. *)
Theorem unconfigured_classifier_fails_open P :
  GROQ_API_KEY P = None \/ GROQ_API_KEY P = Some "" ->
  (forall role msgs w,
      LlamaGuard.invoke P (llamaGuard P) role msgs w = (Ok safeOutput, w))
  /\ (forall config state w,
        exists w',
          step P config guard_input state w
          = (Ok (applyUpdate state
                   {| u_messages := None; u_safety := Some safeOutput |},
                 Some model), w')
          /\ guard_requests w' = guard_requests w).
Proof.
  intros Hkey.
  assert (Hm : LlamaGuard.model (llamaGuard P) = None).
  { unfold llamaGuard, LlamaGuard.new. destruct Hkey as [-> | ->]; reflexivity. }
  split.
  - intros role msgs w. unfold LlamaGuard.invoke. rewrite Hm. reflexivity.
  - intros config state w. eexists.
    unfold step, nodeAction, guardInput, LlamaGuard.invoke. rewrite Hm.
    unfold_monad. simpl. split; reflexivity.
Qed.

Lemma modelNode_appends_assistant P state config w u w' :
  modelNode P state config w = (Ok u, w') ->
  exists m,
    u_messages u = Some [m]
    /\ (class m = AIMessage \/ class m = AIMessageChunk).
Proof.
  unfold modelNode. rewrite default_model_present. intros H.
  apply bind_Ok_inv in H as (response & w1 & _ & H).
  apply bind_Ok_inv in H as (verdict & w2 & _ & H).
  destruct (SafetyAssessment_eqb _ _); unfold ret in H;
    injection H as <- _; eexists; (split; [reflexivity|]); simpl; auto.
Qed.

Lemma modelCondition_on_assistant state m :
  last (messages state) = Some m ->
  class m = AIMessage \/ class m = AIMessageChunk ->
  modelCondition state = Ok (if hasToolCalls m then "tools" else "done").
Proof.
  intros Hl Hc. unfold modelCondition, instanceof. rewrite Hl.
  destruct Hc as [-> | ->]; simpl; destruct (hasToolCalls m); reflexivity.
Qed.

(** C8.  The Model step's transition predicate reads the last message of
    the state.  On an assistant message (plain or chunk) it returns [tools]
    exactly when the message carries one or more tool calls and [done]
    otherwise; on a last message of any other class it throws a type error;
    and whenever the Model step completes, the state it has written ends
    with an assistant message, so the predicate returns without error
    there. *)
Theorem modelCondition_contract :
  (forall state m,
      last (messages state) = Some m ->
      class m = AIMessage \/ class m = AIMessageChunk ->
      modelCondition state = Ok (if hasToolCalls m then "tools" else "done")
      /\ (hasToolCalls m = true <-> exists c cs, tool_calls m = Some (c :: cs)))
  /\ (forall state m,
        last (messages state) = Some m ->
        class m <> AIMessage -> class m <> AIMessageChunk ->
        exists e, modelCondition state = Throw e /\ err_name e = "TypeError")
  /\ (forall P state config w u w',
        modelNode P state config w = (Ok u, w') ->
        exists m,
          last (messages (applyUpdate state u)) = Some m
          /\ (class m = AIMessage \/ class m = AIMessageChunk)
          /\ modelCondition (applyUpdate state u)
             = Ok (if hasToolCalls m then "tools" else "done")).
Proof.
  split; [|split].
  - intros state m Hl Hc. split; [now apply modelCondition_on_assistant|].
    unfold hasToolCalls. destruct (tool_calls m) as [[|c cs]|]; split;
      try discriminate; eauto.
    + intros (c & cs & H). discriminate.
    + intros (c & cs & H). discriminate.
  - intros state m Hl Ha Hc. unfold modelCondition, instanceof. rewrite Hl.
    destruct (class m); simpl; try contradiction; eexists; split; reflexivity.
  - intros P state config w u w' H.
    destruct (modelNode_appends_assistant H) as (m & Hu & Hc).
    exists m.
    assert (Hl : last (messages (applyUpdate state u)) = Some m).
    { unfold applyUpdate. simpl. rewrite Hu. apply last_snoc. }
    split; [exact Hl|]. split; [exact Hc|].
    now apply modelCondition_on_assistant.
Qed.

(** *** The client of every model request *)

Lemma usesDefaultClient_refl w : usesDefaultClient w w.
Proof. exists []. split; [now rewrite app_nil_r | constructor]. Qed.

Lemma usesDefaultClient_trans a b c :
  usesDefaultClient a b -> usesDefaultClient b c -> usesDefaultClient a c.
Proof.
  intros (c1 & H1 & F1) (c2 & H2 & F2). exists (c1 ++ c2). split.
  - rewrite H2, H1. now rewrite app_assoc.
  - apply Forall_app. split; assumption.
Qed.

Lemma run_usesDefaultClient P config limit n state w :
  usesDefaultClient w (snd (run P config limit n state w)).
Proof.
  apply (@respects_run usesDefaultClient usesDefaultClient_refl
           usesDefaultClient_trans).
  - intros P' tgs prompt w0. exists []. simpl. now rewrite app_nil_r.
  - intros P' call Hc w0. exists [call]. split; [reflexivity|].
    constructor; [exact Hc | constructor].
  - intros P' msgs w0. exists []. simpl. now rewrite app_nil_r.
  - intros evs w0. exists []. simpl. now rewrite app_nil_r.
  - intros node w0. exists []. simpl. now rewrite app_nil_r.
Qed.

Lemma turn_usesDefaultClient P limit store input config w :
  usesDefaultClient w (snd (turn P limit store input config w)).
Proof.
  destruct (turn_world P limit store input config w) as [_ Hm].
  destruct (run_usesDefaultClient P config limit entryPoint
              (turnStart store input config)
              (snd (publish [rootEvent "on_chain_start" None] w)))
    as (calls & Hc & Hf).
  exists calls. split; [|exact Hf]. rewrite Hm, Hc. reflexivity.
Qed.

(** Whatever the configuration and whatever the providers answer, a Model
    step sends exactly one request to the chat model, through the default
    client. *)
Lemma modelNode_sends_one_request P state config w :
  model_requests (snd (modelNode P state config w))
  = model_requests w ++ [modelCall P state config].
Proof.
  unfold modelNode. rewrite default_model_present.
  unfold bind at 1, complete. fold (modelCall P state config).
  destruct (openai P _ _); [|reflexivity].
  unfold LlamaGuard.invoke.
  destruct (LlamaGuard.model (llamaGuard P)); unfold bind, classify, ret; simpl;
    [destruct (groq P _ _); [destruct (SafetyAssessment_eqb _ _)|]|];
    reflexivity.
Qed.

End ModelStep.

(** ** C3, C4: the two-line contract of the classifier's reply *)

Module ReplyContract.
Import Msg Runtime LlamaGuard Vocabulary Scenarios JsFacts LlamaGuardFacts.

Lemma categoryAt_label key label :
  ownEntry unsafeContentCategories key = Some label ->
  categoryAt key = Label label.
Proof. intros H. unfold categoryAt. rewrite H. reflexivity. Qed.

(** C3 (as amended).  The taxonomy has 14 entries.  The reply that is
    exactly [safe] parses to SAFE with no categories.  Every reply made of
    the line [unsafe] followed by exactly one more line, whose
    comma-separated pieces are, once trimmed, codes of the taxonomy, parses
    to UNSAFE with each code mapped to its label, in order. *)
Theorem parse_two_line_contract :
  List.length unsafeContentCategories = 14
  /\ parseLlamaGuardOutput "safe" = safeOutput
  /\ forall line labels,
       Js.contains Js.LF line = false ->
       Forall2 (fun code label =>
                  ownEntry unsafeContentCategories (Js.trim code) = Some label)
               (Js.split Js.comma line) labels ->
       parseLlamaGuardOutput ("unsafe" +:+ Js.nl +:+ line)
       = {| safety_assessment := UNSAFE;
            unsafe_categories := map Label labels |}.
Proof.
  split; [reflexivity|]. split; [reflexivity|].
  intros line labels Hline Hcodes.
  rewrite (parse_unsafe_line Hline). f_equal.
  induction Hcodes as [|code label codes labels Hc _ IH]; simpl; [reflexivity|].
  rewrite (categoryAt_label Hc), IH. reflexivity.
Qed.

(** A reply within the contract: two codes with blanks around them. *)
Lemma parse_two_line_contract_witness :
  parseLlamaGuardOutput ("unsafe" +:+ Js.nl +:+ "S1, S10 ")
  = {| safety_assessment := UNSAFE;
       unsafe_categories := [Label "Violent Crimes"; Label "Hate"] |}.
Proof.
  apply (proj2 (proj2 parse_two_line_contract) "S1, S10 " ["Violent Crimes"; "Hate"]).
  - reflexivity.
  - repeat constructor.
Defined.

(** C3, as stated, fails: a reply whose first line is exactly [safe] but
    which goes on with a second line is an ERROR, not SAFE. *)
Lemma first_line_safe_is_not_enough :
  firstLine safeThenMore = "safe"
  /\ parseLlamaGuardOutput safeThenMore = errorOutput
  /\ parseLlamaGuardOutput safeThenMore <> safeOutput.
Proof. split; [reflexivity|]. split; [reflexivity|]. discriminate. Qed.

(** C4, at the failing input: a second line holding a code that the
    taxonomy does not have is read as UNSAFE with an undefined category;
    the reply is not turned into an ERROR. *)
Theorem unmapped_code_is_not_an_error :
  parseLlamaGuardOutput unknownCode
  = {| safety_assessment := UNSAFE; unsafe_categories := [Undefined] |}
  /\ ownEntry unsafeContentCategories "S99" = None
  /\ parseLlamaGuardOutput unknownCode <> errorOutput.
Proof. split; [reflexivity|]. split; [reflexivity|]. discriminate. Qed.

(** Whatever the second line holds, the [try] block completes: no unmapped
    code ever reaches the ERROR of the [catch]. *)
Lemma unsafe_line_never_an_error (line : string) :
  Js.contains Js.LF line = false ->
  safety_assessment (parseLlamaGuardOutput ("unsafe" +:+ Js.nl +:+ line)) = UNSAFE.
Proof. intros H. rewrite (parse_unsafe_line H). reflexivity. Qed.

End ReplyContract.

(** ** C5, C6, C9, C10: the service *)

Module ServiceFacts.
Import Msg Runtime LlamaGuard Agent Schema Service Vocabulary Scenarios.
Import GraphFacts ModelStep.

(** *** The relay *)

Lemma quietEvent_relayStep userInput runId ev :
  quietEvent ev -> relayStep userInput runId ev = Ok [].
Proof.
  intros (Hm & Ht & _). unfold relayStep. rewrite Hm, Ht.
  rewrite andb_false_r. reflexivity.
Qed.

Lemma quietEvent_relayToken userInput ev :
  quietEvent ev -> relayToken userInput ev = Ok [].
Proof.
  intros (_ & _ & Htag). unfold relayToken.
  destruct (String.eqb (event ev) "on_chat_model_stream"); [|reflexivity].
  rewrite (Htag eq_refl). simpl. rewrite andb_false_r. reflexivity.
Qed.

(** A stream of quiet events relays to the end-of-stream marker alone. *)
Lemma relay_quiet userInput runId evs :
  Forall quietEvent evs ->
  relay userInput runId (map Some evs) None = ([SseDone], None).
Proof.
  induction 1 as [|ev evs Hq _ IH]; simpl; [reflexivity|].
  rewrite (quietEvent_relayStep userInput runId Hq).
  rewrite (quietEvent_relayToken userInput Hq).
  rewrite IH. reflexivity.
Qed.

(** For every streamed turn whose input is screened UNSAFE (with a step
    budget of at least three), the response is the end-of-stream marker and
    nothing else; the block message is not relayed. *)
Lemma flagged_input_streams_nothing P uuidv4 limit store userInput w verdict :
  3 <= limit ->
  fst (guardInput P
         (turnStart store (fst (fst (parseInput uuidv4 (user userInput))))
            (snd (fst (parseInput uuidv4 (user userInput))))) w)
  = Ok {| u_messages := None; u_safety := Some verdict |} ->
  safety_assessment verdict = UNSAFE ->
  stream P uuidv4 limit store userInput w = [SseDone].
Proof.
  intros Hlimit Hguard Hunsafe. unfold stream, messageGenerator.
  destruct (parseInput uuidv4 (user userInput)) as [[input config] runId].
  simpl in Hguard.
  destruct (unsafe_turn Hlimit Hguard Hunsafe)
    as (final & w' & evs & Ht & _ & _ & _ & Hev & Hquiet).
  rewrite Ht, Hev. simpl failureOf.
  rewrite drop_app_length, (relay_quiet userInput runId Hquiet).
  reflexivity.
Qed.

(** C5, at the failing input: a request that input screening flags gets
    the end-of-stream marker and no message event, although the same turn
    stores the block message and [POST /invoke] returns it. *)
Theorem flagged_input_stream_has_no_message :
  stream flagging uuids defaultRecursionLimit ∅ (streamed greeting) emptyWorld
  = [SseDone]
  /\ fst (fst (Service.invoke flagging uuids defaultRecursionLimit ∅ greeting emptyWorld))
     = Ok {| o_type := "ai";
             o_content :=
               Text "This conversation was flagged for unsafe content: Violent Crimes";
             o_run_id := "run-0" |}.
Proof. split; reflexivity. Qed.

(** *** History *)

Lemma history_of_thread store thread state :
  store !! thread = Some state ->
  history store thread = Ok (map historyEntry (messages state)).
Proof. intros H. unfold history. rewrite H. reflexivity. Qed.

(** Human and assistant messages are read back with their own type and
    content. *)
Lemma historyEntry_human_or_assistant m :
  class m = HumanMessage \/ class m = AIMessage \/ class m = AIMessageChunk ->
  h_type (historyEntry m) = getType m /\ h_content (historyEntry m) = Msg.content m.
Proof.
  unfold historyEntry, instanceof, getType.
  intros [-> | [-> | ->]]; split; reflexivity.
Qed.

(** A tool message is read back as an assistant message. *)
Lemma historyEntry_tool m :
  class m = ToolMessage ->
  historyEntry m = {| h_type := "ai"; h_content := Msg.content m |}.
Proof. unfold historyEntry, instanceof. intros ->. reflexivity. Qed.

(** C6, at the failing input: after the calculator round the thread holds
    a tool message with content 4; the history operation returns it with
    type [ai], where the streaming path gives the same message the type
    [tool]. *)
Theorem tool_message_read_back_as_ai :
  (messages <$> afterSum !! "t2")
  = Some [newHumanMessage "What is 2+2?";
          chunkOf {| r_content := Text ""; r_tool_calls := [calculatorCall] |};
          calculatorResult;
          chunkOf {| r_content := Text "2+2 is 4"; r_tool_calls := [] |}]
  /\ history afterSum "t2"
     = Ok [ {| h_type := "human"; h_content := Text "What is 2+2?" |};
            {| h_type := "ai"; h_content := Text "" |};
            {| h_type := "ai"; h_content := Text "4" |};
            {| h_type := "ai"; h_content := Text "2+2 is 4" |} ]
  /\ getType calculatorResult = "tool"
  /\ fromLangChain calculatorResult
     = Ok {| type := "tool"; content := "4"; tool_calls := [];
             tool_call_id := Some "call_1"; run_id := None;
             original := calculatorResult |}.
Proof. repeat split; reflexivity. Qed.

(** *** The model selection of a request *)

Lemma invoke_world P uuidv4 limit store u w :
  snd (Service.invoke P uuidv4 limit store u w)
  = snd (turn P limit store (fst (fst (parseInput uuidv4 u)))
           (snd (fst (parseInput uuidv4 u))) w).
Proof.
  unfold Service.invoke.
  destruct (parseInput uuidv4 u) as [[input config] runId]. simpl.
  destruct (turn P limit store input config w) as [[result store'] w'].
  reflexivity.
Qed.

(** C9.  Take any request and give it two different model selections.  The
    selection reaches the configuration of the run, and nothing else: on any
    state, the Model step under either configuration sends exactly one
    request to the chat model, through the client registered under
    [gpt-3.5-turbo], with the same tools and the same prompt, the two
    requests differing in the configuration they carry only; and in both
    turns every request to the chat model goes through that one client. *)
Theorem model_selection_ignored P uuidv4 limit store u m1 m2 w :
  (forall state w0,
      model_requests
        (snd (modelNode P state (snd (fst (parseInput uuidv4 (withModel u m1)))) w0))
      = model_requests w0
        ++ [{| mc_client := defaultClient; mc_tools := tools;
               mc_messages := newSystemMessage (instructions P) :: messages state;
               mc_config := snd (fst (parseInput uuidv4 (withModel u m1))) |}]
      /\ model_requests
           (snd (modelNode P state (snd (fst (parseInput uuidv4 (withModel u m2)))) w0))
         = model_requests w0
           ++ [{| mc_client := defaultClient; mc_tools := tools;
                  mc_messages := newSystemMessage (instructions P) :: messages state;
                  mc_config := snd (fst (parseInput uuidv4 (withModel u m2))) |}])
  /\ exists calls1 calls2,
    model_requests (snd (Service.invoke P uuidv4 limit store (withModel u m1) w))
    = model_requests w ++ calls1
    /\ model_requests (snd (Service.invoke P uuidv4 limit store (withModel u m2) w))
       = model_requests w ++ calls2
    /\ Forall (fun c => mc_client c = defaultClient) (calls1 ++ calls2)
    /\ models !! "gpt-3.5-turbo" = Some defaultClient
    /\ cfg_model (snd (fst (parseInput uuidv4 (withModel u m1)))) = orElse m1 "gpt-4"
    /\ cfg_model (snd (fst (parseInput uuidv4 (withModel u m2)))) = orElse m2 "gpt-4".
Proof.
  split.
  { intros state w0. split; apply modelNode_sends_one_request. }
  destruct (turn_usesDefaultClient P limit store
              (fst (fst (parseInput uuidv4 (withModel u m1))))
              (snd (fst (parseInput uuidv4 (withModel u m1)))) w)
    as (calls1 & H1 & F1).
  destruct (turn_usesDefaultClient P limit store
              (fst (fst (parseInput uuidv4 (withModel u m2))))
              (snd (fst (parseInput uuidv4 (withModel u m2)))) w)
    as (calls2 & H2 & F2).
  exists calls1, calls2. rewrite !invoke_world.
  split; [exact H1|]. split; [exact H2|].
  split; [apply Forall_app; split; assumption|].
  repeat split; reflexivity.
Qed.

(** *** Echo suppression *)

Lemma relayMessage_inv userInput runId m cm :
  In (SseMessage cm) (relayMessage userInput runId m) ->
  exists cm0,
    fromLangChain m = Ok cm0 /\ cm = withRunId cm0 runId
    /\ (String.eqb (type cm) "human"
        && String.eqb (Schema.content cm) (message (user userInput)) = false).
Proof.
  unfold relayMessage. destruct (fromLangChain m) as [cm0|e].
  - destruct (String.eqb (type (withRunId cm0 runId)) "human"
              && String.eqb (Schema.content (withRunId cm0 runId))
                   (message (user userInput))) eqn:E; simpl.
    + intros [].
    + intros [H|[]]. injection H as <-. eauto.
  - simpl. intros [H|[]]. discriminate.
Qed.

Lemma relayToken_no_message userInput ev out cm :
  relayToken userInput ev = Ok out -> ~ In (SseMessage cm) out.
Proof.
  unfold relayToken.
  destruct (_ && _ && _); [|intros H; injection H as <-; intros []].
  destruct (data_chunk ev) as [chunk|]; [|discriminate].
  destruct (removeToolCalls chunk); [destruct (negb _)|];
    intros H; injection H as <-; simpl; intuition discriminate.
Qed.

Lemma relayStep_inv userInput runId ev out cm :
  relayStep userInput runId ev = Ok out ->
  In (SseMessage cm) out ->
  String.eqb (type cm) "human"
  && String.eqb (Schema.content cm) (message (user userInput)) = false.
Proof.
  unfold relayStep. destruct (_ && _); [|intros H; injection H as <-; intros []].
  destruct (data_output ev) as [o|]; [|discriminate].
  destruct (out_messages o) as [msgs|]; intros H; injection H as <-; [|intros []].
  intros Hin. apply in_flat_map in Hin as (m & _ & Hin).
  apply relayMessage_inv in Hin as (cm0 & _ & _ & H). exact H.
Qed.

(** C10.  Echo suppression is by string equality of content.  A message
    that maps to the wire type [human] with content equal to the request's
    [message] yields nothing; one with different content yields its
    [message] event; and no run of the relay, over any events, ever emits a
    [message] event of type [human] whose content equals the request's
    [message]. *)
Theorem echo_suppressed_by_content_equality userInput runId :
  (forall m cm,
      fromLangChain m = Ok cm -> type cm = "human" ->
      Schema.content cm = message (user userInput) ->
      relayMessage userInput runId m = [])
  /\ (forall m cm,
        fromLangChain m = Ok cm -> type cm = "human" ->
        Schema.content cm <> message (user userInput) ->
        relayMessage userInput runId m = [SseMessage (withRunId cm runId)])
  /\ (forall evs failure cm,
        In (SseMessage cm) (fst (relay userInput runId evs failure)) ->
        type cm = "human" ->
        Schema.content cm <> message (user userInput)).
Proof.
  split; [|split].
  - intros m cm Hm Ht Hc. unfold relayMessage. rewrite Hm. simpl.
    rewrite Ht, Hc, !String.eqb_refl. reflexivity.
  - intros m cm Hm Ht Hc. unfold relayMessage. rewrite Hm. simpl.
    apply String.eqb_neq in Hc. rewrite Ht, Hc. reflexivity.
  - intros evs failure cm. induction evs as [|[ev|] evs IH].
    + destruct failure; simpl; intuition discriminate.
    + cbn [relay].
      destruct (relayStep userInput runId ev) as [out1|e] eqn:E1;
        [|simpl; intros []].
      destruct (relayToken userInput ev) as [out2|e] eqn:E2.
      * destruct (relay userInput runId evs failure) as [outs err].
        cbn [fst] in *.
        intros Hin Ht. apply in_app_or in Hin as [Hin|Hin].
        { pose proof (relayStep_inv E1 Hin) as Hcm.
          rewrite Ht in Hcm. simpl in Hcm.
          intros Hc. rewrite Hc, String.eqb_refl in Hcm. discriminate. }
        apply in_app_or in Hin as [Hin|Hin].
        { exfalso. exact (relayToken_no_message E2 Hin). }
        auto.
      * cbn [fst]. intros Hin Ht.
        pose proof (relayStep_inv E1 Hin) as Hcm.
        rewrite Ht in Hcm. simpl in Hcm.
        intros Hc. rewrite Hc, String.eqb_refl in Hcm. discriminate.
    + exact IH.
Qed.

End ServiceFacts.

(** ** The statements at the concrete scenarios *)

Module Instances.
Import Msg Runtime LlamaGuard Agent Schema Service Vocabulary Scenarios.
Import InputScreening ModelStep ServiceFacts.

(** The flagged greeting ends after the block message, with no model
    request. *)
Lemma guard_verdict_decides_model_step_witness :
  exists final,
    fst (fst flaggedTurn) = Ok final
    /\ snd (fst flaggedTurn) !! "t1" = Some final
    /\ messages final
       = [newHumanMessage "hi"]
         ++ [newAIMessage
               "This conversation was flagged for unsafe content: Violent Crimes"]
    /\ steps (snd flaggedTurn) = ["guard_input"; "block_unsafe_content"]
    /\ model_requests (snd flaggedTurn) = [].
Proof.
  refine (proj1 (@guard_verdict_decides_model_step
                   flagging defaultRecursionLimit ∅ [newHumanMessage "hi"]
                   greetingConfig emptyWorld
                   {| u_messages := None; u_safety := Some flaggedVerdict |}
                   flaggedVerdict
                   (fst (fst flaggedTurn)) (snd (fst flaggedTurn)) (snd flaggedTurn)
                   _ _ _ _) _).
  - unfold defaultRecursionLimit. lia.
  - reflexivity.
  - reflexivity.
  - reflexivity.
  - reflexivity.
Defined.

(** The flagged response of the greeting scenario. *)
Lemma flagged_response_replaced_witness :
  exists u w',
    modelNode flagging afterGreeting greetingConfig emptyWorld = (Ok u, w')
    /\ u_messages u
       = Some [newAIMessage
                 "This response was flagged for unsafe content: Violent Crimes"]
    /\ ~ In (chunkOf hello) (default [] (u_messages u))
    /\ messages (applyUpdate afterGreeting u)
       = messages afterGreeting ++ default [] (u_messages u)
    /\ u_safety u = Some flaggedVerdict.
Proof.
  refine (@flagged_response_replaced flagging afterGreeting greetingConfig
            emptyWorld hello flaggedVerdict _ _ _); reflexivity.
Defined.

(** C2, as stated, fails: the text the Model step appends for a flagged
    response is not the text of the blocking step for the same
    assessment. *)
Lemma flagged_response_text_differs :
  fst (modelNode flagging afterGreeting greetingConfig emptyWorld)
  = Ok {| u_messages :=
            Some [newAIMessage
                    "This response was flagged for unsafe content: Violent Crimes"];
          u_safety := Some flaggedVerdict |}
  /\ agentScreening flagging afterGreeting hello emptyWorld = Ok flaggedVerdict
  /\ fst (blockUnsafeContent
            (applyUpdate afterGreeting
               {| u_messages := None; u_safety := Some flaggedVerdict |})
            emptyWorld)
     = Ok {| u_messages :=
               Some [newAIMessage
                       "This conversation was flagged for unsafe content: Violent Crimes"];
             u_safety := None |}
  /\ "This response was flagged for unsafe content: Violent Crimes"
     <> "This conversation was flagged for unsafe content: "
        +:+ Js.join ", " ["Violent Crimes"].
Proof. repeat split; try reflexivity. discriminate. Qed.

(** Without a credential nothing is asked and the turn goes to the model. *)
Lemma unconfigured_classifier_fails_open_witness :
  LlamaGuard.invoke unconfigured (llamaGuard unconfigured) "User"
    [newHumanMessage "hi"] emptyWorld
  = (Ok safeOutput, emptyWorld)
  /\ exists w',
       step unconfigured greetingConfig guard_input afterGreeting emptyWorld
       = (Ok (applyUpdate afterGreeting
                {| u_messages := None; u_safety := Some safeOutput |},
              Some Agent.model), w')
       /\ guard_requests w' = guard_requests emptyWorld.
Proof.
  destruct (@unconfigured_classifier_fails_open unconfigured (or_introl eq_refl))
    as [Hinvoke Hstep].
  split.
  - apply Hinvoke.
  - apply Hstep.
Defined.

(** A last message that asks for the calculator sends the run to the tools. *)
Lemma modelCondition_contract_witness :
  modelCondition askingForTool = Ok "tools".
Proof.
  exact (proj1 (proj1 modelCondition_contract askingForTool
                  (chunkOf {| r_content := Text "";
                              r_tool_calls := [calculatorCall] |})
                  eq_refl (or_intror eq_refl))).
Defined.

(** The greeting asked with [gpt-4] and asked with [gpt-3.5-turbo]: the
    Model step sends its one request through the default client both
    times. *)
Lemma model_selection_ignored_witness :
  model_requests
    (snd (modelNode permissive afterGreeting
            {| Runtime.thread_id := "t1"; cfg_model := "gpt-4"; runId := "run-0" |}
            emptyWorld))
  = [{| mc_client := defaultClient; mc_tools := tools;
        mc_messages := newSystemMessage (instructions permissive)
                       :: messages afterGreeting;
        mc_config := {| Runtime.thread_id := "t1"; cfg_model := "gpt-4";
                        runId := "run-0" |} |}]
  /\ model_requests
       (snd (modelNode permissive afterGreeting
               {| Runtime.thread_id := "t1"; cfg_model := "gpt-3.5-turbo";
                  runId := "run-0" |}
               emptyWorld))
     = [{| mc_client := defaultClient; mc_tools := tools;
           mc_messages := newSystemMessage (instructions permissive)
                          :: messages afterGreeting;
           mc_config := {| Runtime.thread_id := "t1"; cfg_model := "gpt-3.5-turbo";
                           runId := "run-0" |} |}].
Proof.
  exact (proj1 (@model_selection_ignored permissive uuids defaultRecursionLimit ∅
                  greeting (Some "gpt-4") (Some "gpt-3.5-turbo") emptyWorld)
           afterGreeting emptyWorld).
Defined.

(** The caller's own message is skipped; another human message is not. *)
Lemma echo_suppressed_by_content_equality_witness :
  relayMessage (streamed greeting) "run-0" echo = []
  /\ relayMessage (streamed greeting) "run-0" otherHuman
     = [SseMessage
          {| type := "human"; content := "hello there"; tool_calls := [];
             tool_call_id := None; run_id := Some "run-0";
             original := otherHuman |}].
Proof.
  destruct (echo_suppressed_by_content_equality (streamed greeting) "run-0")
    as (Hskip & Hemit & _).
  split.
  - refine (Hskip echo _ eq_refl eq_refl eq_refl).
  - refine (Hemit otherHuman _ eq_refl eq_refl _). discriminate.
Defined.

End Instances.
(** ** The reply parser and the prompt, further *)

Module ClassifierFacts.
Import Msg Runtime LlamaGuard Agent Vocabulary Scenarios Coverage.
Import JsFacts LlamaGuardFacts GraphFacts.


(** X2.  Categories come with UNSAFE only: a SAFE or ERROR result has none, and an
    UNSAFE result has one entry per comma-separated piece of the second
    line, so at least one. *)
Theorem categories_only_when_unsafe (output : string) :
  (safety_assessment (parseLlamaGuardOutput output) <> UNSAFE ->
   unsafe_categories (parseLlamaGuardOutput output) = [])
  /\ (safety_assessment (parseLlamaGuardOutput output) = UNSAFE ->
      unsafe_categories (parseLlamaGuardOutput output)
      = map (fun c => categoryAt (Js.trim c)) (Js.split Js.comma (secondLine output))
      /\ 1 <= length (unsafe_categories (parseLlamaGuardOutput output))).
Proof.
  unfold parseLlamaGuardOutput, secondLine.
  destruct (String.eqb output "safe"); simpl.
  { split; [reflexivity | discriminate]. }
  destruct (_ || _); simpl.
  { split; [reflexivity | discriminate]. }
  split; [intros H; now contradiction H|].
  intros _. split; [reflexivity|].
  rewrite length_map.
  destruct (Js.split Js.comma _) eqn:E; simpl; [|lia].
  exfalso. eapply split_nonempty, E.
Qed.

(** X3.  Messages that are neither human nor assistant messages (tool results,
    system messages) do not reach the classifier: inserting one anywhere in
    the history leaves the prompt unchanged. *)
Theorem prompt_ignores_other_messages role (before after : list BaseMessage) m :
  inDialogue m = false ->
  compilePrompt role (before ++ m :: after) = compilePrompt role (before ++ after).
Proof.
  intros Hm. unfold compilePrompt, inDialogue in *.
  rewrite !List.filter_app. simpl. rewrite Hm. reflexivity.
Qed.

Lemma prompt_ignores_other_messages_witness :
  compilePrompt "User" ([newHumanMessage "hi"] ++ toolNote :: [newAIMessage "Hello!"])
  = compilePrompt "User" ([newHumanMessage "hi"] ++ [newAIMessage "Hello!"]).
Proof.
  apply (@prompt_ignores_other_messages "User" [newHumanMessage "hi"]
           [newAIMessage "Hello!"] toolNote).
  reflexivity.
Defined.

Lemma getSubstitution_plain matched before after replacement :
  Js.contains "$" replacement = false ->
  Js.getSubstitution matched before after replacement = replacement.
Proof.
  induction replacement as [|c r IH]; simpl; [reflexivity|].
  intros H. apply orb_false_iff in H as [Hc Hr].
  rewrite Hc, (IH Hr). reflexivity.
Qed.

(** X4.  The prompt sent for the roles the graph uses, when the transcript holds
    no dollar sign: the instructions with the role in the first placeholder,
    the transcript in place of the conversation placeholder, and the closing
    instructions, in which the second role placeholder is left as it is
    (the replacement touches the first occurrence only). *)
Theorem prompt_shape role (messages : list BaseMessage) :
  role = "User" \/ role = "Agent" ->
  Js.contains "$" (transcript messages) = false ->
  compilePrompt role messages
  = promptHead role +:+ transcript messages +:+ promptTail.
Proof.
  intros Hrole Hplain. unfold compilePrompt. fold (transcript messages).
  unfold Js.replace at 1.
  assert (Hfind : Js.findFirst "{conversation_history}"
                    (Js.replace "{role}" role llamaGuardInstructions)
                  = Some (promptHead role, promptTail)).
  { destruct Hrole as [-> | ->]; vm_compute; reflexivity. }
  rewrite Hfind, (getSubstitution_plain _ _ _ Hplain). reflexivity.
Qed.

Lemma prompt_shape_witness :
  compilePrompt "Agent" [newHumanMessage "hi"; toolNote; newAIMessage "Hello!"]
  = promptHead "Agent"
    +:+ ("User: hi" +:+ Js.nl +:+ Js.nl +:+ "Agent: Hello!")
    +:+ promptTail.
Proof.
  apply (@prompt_shape "Agent" [newHumanMessage "hi"; toolNote; newAIMessage "Hello!"]).
  - right. reflexivity.
  - reflexivity.
Defined.

(** X5.  With a credential configured, a call of the classifier's [invoke] sends
    exactly one classification request, whose text is the compiled prompt,
    and no model request; it returns the parsed reply, and a failure of the
    provider is thrown on to the caller. *)
Theorem configured_classifier_asks_once P role (messages : list BaseMessage) w :
  (exists c key, GROQ_API_KEY P = Some (String c key)) ->
  exists w',
    LlamaGuard.invoke P (llamaGuard P) role messages w
    = (match groq P (length (guard_requests w)) (compilePrompt role messages) with
       | Ok reply => Ok (parseLlamaGuardOutput reply)
       | Throw e => Throw e
       end, w')
    /\ guard_requests w' = guard_requests w ++ [compilePrompt role messages]
    /\ model_requests w' = model_requests w
    /\ steps w' = steps w.
Proof.
  intros (c & key & Hkey).
  unfold LlamaGuard.invoke, llamaGuard, LlamaGuard.new. rewrite Hkey. simpl.
  unfold bind, classify, ret.
  destruct (groq P _ _); eexists; repeat split; reflexivity.
Qed.

Lemma configured_classifier_asks_once_witness :
  exists w',
    LlamaGuard.invoke flagging (llamaGuard flagging) "User" [newHumanMessage "hi"]
      emptyWorld
    = (Ok flaggedVerdict, w')
    /\ guard_requests w' = [] ++ [compilePrompt "User" [newHumanMessage "hi"]]
    /\ model_requests w' = []
    /\ steps w' = [].
Proof.
  apply (@configured_classifier_asks_once flagging "User" [newHumanMessage "hi"]
           emptyWorld).
  exists "g"%char, "sk". reflexivity.
Defined.

End ClassifierFacts.

(** ** The Model step and the run loop, further *)

Module RunFacts.
Import Msg Runtime LlamaGuard Agent Vocabulary Scenarios Coverage.
Import GraphFacts ModelStep.
Local Open Scope agent_scope.

(** X6.  When the screening of the model's response gives anything but UNSAFE
    (SAFE, or ERROR for a reply the parser cannot read), the Model step
    appends the response itself, as the only message, and leaves the
    recorded assessment alone. *)
Theorem passed_response_appended P state config w response verdict :
  openai P (length (model_requests w)) (modelCall P state config) = Ok response ->
  agentScreening P state response w = Ok verdict ->
  safety_assessment verdict <> UNSAFE ->
  exists w',
    modelNode P state config w
    = (Ok {| u_messages := Some [chunkOf response]; u_safety := None |}, w')
    /\ messages (applyUpdate state
                   {| u_messages := Some [chunkOf response]; u_safety := None |})
       = messages state ++ [chunkOf response]
    /\ safety (applyUpdate state
                 {| u_messages := Some [chunkOf response]; u_safety := None |})
       = safety state.
Proof.
  intros Hr Hv Hu.
  destruct (modelNode_unfold Hr) as (w1 & Hg & ->).
  unfold agentScreening in Hv.
  rewrite (invoke_fst_congr P (llamaGuard P) "Agent"
             (messages state ++ [chunkOf response]) (eq_sym Hg)) in Hv.
  unfold bind.
  destruct (LlamaGuard.invoke P (llamaGuard P) "Agent" _ w1) as [[v|e] w2];
    simpl in Hv; [|discriminate].
  injection Hv as ->.
  destruct (SafetyAssessment_eqb (safety_assessment verdict) UNSAFE) eqn:E.
  { apply SafetyAssessment_eqb_eq in E. contradiction. }
  eexists. repeat split; reflexivity.
Qed.

Lemma passed_response_appended_witness :
  exists w',
    modelNode permissive afterGreeting greetingConfig emptyWorld
    = (Ok {| u_messages := Some [chunkOf hello]; u_safety := None |}, w')
    /\ messages (applyUpdate afterGreeting
                   {| u_messages := Some [chunkOf hello]; u_safety := None |})
       = messages afterGreeting ++ [chunkOf hello]
    /\ safety (applyUpdate afterGreeting
                 {| u_messages := Some [chunkOf hello]; u_safety := None |})
       = safety afterGreeting.
Proof.
  refine (@passed_response_appended permissive afterGreeting greetingConfig
            emptyWorld hello safeOutput _ _ _); try reflexivity.
  discriminate.
Defined.

(** X7.  When the model call fails, the Model step throws the same error: the
    request has been sent, no classification request follows, and a run
    standing at the Model node ends with that error and with its state as it
    was. *)
Theorem model_failure_is_fatal P state config w e :
  openai P (length (model_requests w)) (modelCall P state config) = Throw e ->
  (exists w',
      modelNode P state config w = (Throw e, w')
      /\ model_requests w' = model_requests w ++ [modelCall P state config]
      /\ guard_requests w' = guard_requests w)
  /\ (forall budget,
        exists w', run P config (S budget) model state w = (Throw e, state, w')).
Proof.
  intros Hr. split.
  - unfold modelNode. rewrite default_model_present.
    unfold bind at 1, complete. fold (modelCall P state config). rewrite Hr.
    eexists. repeat split; reflexivity.
  - intros budget. rewrite run_S.
    unfold step, nodeAction, modelNode. rewrite default_model_present.
    unfold bind, enter, publish, complete. simpl.
    fold (modelCall P state config). rewrite Hr. eexists. reflexivity.
Qed.

Lemma model_failure_is_fatal_witness :
  exists w',
    run offline greetingConfig defaultRecursionLimit model afterGreeting emptyWorld
    = (Throw {| err_name := "Error"; err_message := "Connection error." |},
       afterGreeting, w').
Proof.
  exact (proj2 (@model_failure_is_fatal offline afterGreeting greetingConfig
                  emptyWorld _ eq_refl) 24).
Defined.

(** *** What a completed step tells *)

Lemma step_inv P config n state w state' target w' :
  step P config n state w = (Ok (state', target), w') ->
  exists u w1 w2,
    nodeAction P config n state w1 = (Ok u, w2)
    /\ state' = applyUpdate state u
    /\ nextNode n state' = Ok target.
Proof.
  unfold step. intros H.
  apply bind_Ok_inv in H as ([] & w1 & _ & H).
  apply bind_Ok_inv in H as ([] & w2 & _ & H).
  apply bind_Ok_inv in H as (u & w3 & Hu & H).
  apply bind_Ok_inv in H as ([] & w4 & _ & H).
  apply bind_Ok_inv in H as (tgt & w5 & Ht & H).
  unfold ret in H. injection H as <- <- <-.
  unfold lift in Ht. injection Ht as Ht _.
  exists u, w2, w3. repeat split; assumption.
Qed.

(** Every node appends to the messages and removes none. *)
Lemma applyUpdate_appends state u :
  exists added, messages (applyUpdate state u) = messages state ++ added.
Proof.
  unfold applyUpdate. simpl. destruct (u_messages u) as [y|].
  - exists y. reflexivity.
  - exists []. now rewrite app_nil_r.
Qed.

Lemma run_appends P config limit n state w :
  exists added,
    messages (snd (fst (run P config limit n state w))) = messages state ++ added.
Proof.
  revert n state w. induction limit as [|k IH]; intros n state w.
  - exists []. simpl. now rewrite app_nil_r.
  - rewrite run_S.
    destruct (step P config n state w) as [[[state' [n'|]]|e] w'] eqn:Hs.
    + destruct (step_inv Hs) as (u & w1 & w2 & _ & -> & _).
      destruct (applyUpdate_appends state u) as [a1 H1].
      destruct (IH n' (applyUpdate state u) w') as [a2 H2].
      exists (a1 ++ a2). rewrite H2, H1, app_assoc. reflexivity.
    + destruct (step_inv Hs) as (u & w1 & w2 & _ & -> & _).
      destruct k; simpl; apply applyUpdate_appends.
    + exists []. simpl. now rewrite app_nil_r.
Qed.

(** X8.  Within a turn the stored conversation only grows: whatever the turn
    does, and whether it completes or fails, the state it stores for the
    thread holds the messages stored before, then the input, then the
    messages the turn added; nothing is removed or rewritten. *)
Theorem turn_is_append_only P limit store input config w :
  exists state' added,
    snd (fst (turn P limit store input config w)) !! thread_id config = Some state'
    /\ messages state'
       = messages (default emptyState (store !! thread_id config))
         ++ input ++ added.
Proof.
  rewrite turn_unfold.
  destruct (run_appends P config limit entryPoint (turnStart store input config)
              (snd (publish [rootEvent "on_chain_start" None] w)))
    as [added Ha].
  destruct (run P config limit entryPoint _ _) as [[[[]|e] final] w'];
    simpl in *; exists final, added;
    (split; [apply lookup_insert_eq | rewrite Ha, <- app_assoc; reflexivity]).
Qed.

(** *** How a run ends *)

Lemma modelCondition_done state :
  modelCondition state = Ok "done" \/
  (exists path, modelCondition state = Ok path /\ String.eqb path "tools" = false) ->
  exists m,
    last (messages state) = Some m /\ isAssistant m /\ hasToolCalls m = false.
Proof.
  unfold modelCondition, instanceof, isAssistant.
  destruct (last (messages state)) as [m|].
  - intros H. exists m. split; [reflexivity|].
    destruct (class m) eqn:Hc; simpl in H;
      try (destruct H as [H | (p & H & _)]; discriminate);
      (split; [auto|]);
      destruct (hasToolCalls m); try reflexivity;
      destruct H as [H | (p & H & Hp)]; try discriminate;
      injection H as <-; discriminate.
  - intros [H | (p & H & _)]; discriminate.
Qed.

Lemma block_update P config state w u w' :
  nodeAction P config block_unsafe_content state w = (Ok u, w') ->
  exists text, u_messages u = Some [newAIMessage text].
Proof.
  simpl. unfold blockUnsafeContent, ret. intros H. injection H as <- _.
  eexists. reflexivity.
Qed.

Lemma run_ends_with_assistant P config limit n state w final w' :
  run P config limit n state w = (Ok tt, final, w') ->
  exists m,
    last (messages final) = Some m /\ isAssistant m /\ hasToolCalls m = false.
Proof.
  revert n state w. induction limit as [|k IH]; intros n state w; [discriminate|].
  rewrite run_S.
  destruct (step P config n state w) as [[[state' [n'|]]|e] w1] eqn:Hs;
    [apply IH | destruct k; [discriminate|] | discriminate].
  intros H. injection H as <- <-.
  destruct (step_inv Hs) as (u & wa & wb & Hu & -> & Hnext).
  destruct n; simpl in Hnext.
  - destruct (String.eqb _ "unsafe"); discriminate.
  - destruct (block_update Hu) as [text Ht].
    exists (newAIMessage text). unfold applyUpdate. simpl. rewrite Ht.
    split; [apply last_snoc|]. split; [left|]; reflexivity.
  - apply modelCondition_done. right.
    destruct (modelCondition (applyUpdate state u)) as [path|e]; [|discriminate].
    exists path. split; [reflexivity|].
    destruct (String.eqb path "tools"); [discriminate | reflexivity].
  - discriminate.
Qed.

(** X9.  A turn that completes leaves an assistant message with no pending tool
    call as the last message of the stored state, whatever the providers
    answered and however many tool rounds were run. *)
Theorem completed_turn_ends_with_assistant
    P limit store input config w final store' w' :
  turn P limit store input config w = (Ok final, store', w') ->
  exists m,
    store' !! thread_id config = Some final
    /\ last (messages final) = Some m
    /\ isAssistant m
    /\ hasToolCalls m = false.
Proof.
  rewrite turn_unfold.
  destruct (run P config limit entryPoint _ _) as [[[[]|e] fin] w1] eqn:Hrun;
    [|discriminate].
  intros H. injection H as <- <- <-.
  destruct (run_ends_with_assistant Hrun) as (m & Hl & Ha & Ht).
  exists m. split; [apply lookup_insert_eq|]. auto.
Qed.

Lemma completed_turn_ends_with_assistant_witness :
  exists m,
    snd (fst flaggedTurn) !! "t1"
    = Some {| messages := [newHumanMessage "hi"; blockMessage flaggedVerdict];
              safety := Some flaggedVerdict; is_last_step := None |}
    /\ last [newHumanMessage "hi"; blockMessage flaggedVerdict] = Some m
    /\ isAssistant m
    /\ hasToolCalls m = false.
Proof.
  refine (@completed_turn_ends_with_assistant flagging defaultRecursionLimit ∅
            [newHumanMessage "hi"] greetingConfig emptyWorld
            {| messages := [newHumanMessage "hi"; blockMessage flaggedVerdict];
               safety := Some flaggedVerdict; is_last_step := None |}
            (snd (fst flaggedTurn)) (snd flaggedTurn) _).
  reflexivity.
Defined.

(** *** The path of a run through the graph *)

Lemma nextNode_edge n state n' :
  nextNode n state = Ok (Some n') -> edge (nodeName n) (nodeName n') = true.
Proof.
  destruct n; simpl.
  - destruct (String.eqb _ "unsafe"); intros H; injection H as <-; reflexivity.
  - discriminate.
  - destruct (modelCondition state) as [path|e]; [|discriminate].
    destruct (String.eqb path "tools"); intros H; [|discriminate].
    injection H as <-. reflexivity.
  - intros H. injection H as <-. reflexivity.
Qed.

Lemma run_follows_edges P config limit n state w :
  exists trace,
    steps (snd (run P config limit n state w)) = steps w ++ trace
    /\ (trace = [] \/ exists rest, trace = nodeName n :: rest
                                   /\ chain (nodeName n) rest = true).
Proof.
  revert n state w. induction limit as [|k IH]; intros n state w.
  - exists []. simpl. split; [now rewrite app_nil_r | now left].
  - rewrite run_world. pose proof (step_steps P config n state w) as Hsteps.
    destruct (step P config n state w) as [[[state' [n'|]]|e] w1] eqn:Hs;
      simpl in Hsteps.
    + destruct (step_inv Hs) as (u & wa & wb & _ & -> & Hnext).
      apply nextNode_edge in Hnext.
      destruct (IH n' (applyUpdate state u) w1) as (trace & Ht & Hshape).
      exists (nodeName n :: trace). split.
      { rewrite Ht, Hsteps, <- app_assoc. reflexivity. }
      right. exists trace. split; [reflexivity|].
      destruct Hshape as [-> | (rest & -> & Hc)]; [reflexivity|].
      simpl. rewrite Hnext, Hc. reflexivity.
    + exists [nodeName n]. split; [exact Hsteps|].
      right. exists []. split; reflexivity.
    + exists [nodeName n]. split; [exact Hsteps|].
      right. exists []. split; reflexivity.
Qed.

(** X10.  The nodes a turn enters, in order, form a path of the graph: the path
    starts at the screening node and every move follows one of the wired
    edges (screening to blocking or to Model, Model to Tools, Tools back to
    Model), whether the turn completes, fails or runs out of budget. *)
Theorem turn_follows_the_graph P limit store input config w :
  exists trace,
    steps (snd (turn P limit store input config w)) = steps w ++ trace
    /\ (trace = [] \/ exists rest, trace = "guard_input" :: rest
                                   /\ chain "guard_input" rest = true).
Proof.
  destruct (turn_world P limit store input config w) as [-> _].
  destruct (run_follows_edges P config limit entryPoint
              (turnStart store input config)
              (snd (publish [rootEvent "on_chain_start" None] w)))
    as (trace & Ht & Hshape).
  exists trace. split; [exact Ht | exact Hshape].
Qed.

(** *** The recorded assessment at the end of a turn *)

Lemma modelNode_inv P state config w u w' :
  modelNode P state config w = (Ok u, w') ->
  (exists v, safety_assessment v = UNSAFE
             /\ u = {| u_messages := Some [flaggedResponse v]; u_safety := Some v |})
  \/ (exists r, u = {| u_messages := Some [chunkOf r]; u_safety := None |}).
Proof.
  unfold modelNode. rewrite default_model_present. intros H.
  apply bind_Ok_inv in H as (response & w1 & _ & H).
  apply bind_Ok_inv in H as (verdict & w2 & _ & H).
  destruct (SafetyAssessment_eqb _ _) eqn:E; unfold ret in H; injection H as <- _.
  - left. exists verdict. split; [now apply SafetyAssessment_eqb_eq | reflexivity].
  - right. eauto.
Qed.

Lemma tools_update P config state w u w' :
  nodeAction P config tools_node state w = (Ok u, w') -> u_safety u = None.
Proof.
  simpl. intros H. apply bind_Ok_inv in H as (results & w1 & _ & H).
  unfold ret in H. injection H as <- _. reflexivity.
Qed.

Lemma flagged_state_is_done state v :
  nextNode model
    (applyUpdate state
       {| u_messages := Some [flaggedResponse v]; u_safety := Some v |})
  = Ok None.
Proof.
  simpl.
  rewrite (@modelCondition_on_assistant _ (flaggedResponse v));
    [reflexivity | apply last_snoc | left; reflexivity].
Qed.

Lemma run_after_screening P config limit n state w final w' :
  n = model \/ n = tools_node ->
  calm state ->
  run P config limit n state w = (Ok tt, final, w') ->
  forall v, safety final = Some v -> safety_assessment v = UNSAFE ->
            last (messages final) = Some (flaggedResponse v).
Proof.
  revert n state w. induction limit as [|k IH]; intros n state w Hn Hcalm;
    [discriminate|].
  rewrite run_S.
  destruct (step P config n state w) as [[[state' [n'|]]|e] w1] eqn:Hs;
    [ | | discriminate].
  - destruct (step_inv Hs) as (u & wa & wb & Hu & -> & Hnext).
    destruct Hn as [-> | ->].
    + destruct (modelNode_inv Hu) as [(v0 & _ & ->) | (r & ->)].
      * rewrite flagged_state_is_done in Hnext. discriminate.
      * apply IH; [|exact Hcalm].
        simpl in Hnext. destruct (modelCondition _); [|discriminate].
        destruct (String.eqb _ "tools"); [|discriminate].
        injection Hnext as <-. now right.
    + pose proof (tools_update Hu) as Hsafe.
      apply IH.
      * simpl in Hnext. injection Hnext as <-. now left.
      * intros v Hv. apply Hcalm. unfold applyUpdate in Hv. simpl in Hv.
        rewrite Hsafe in Hv. exact Hv.
  - destruct k; [discriminate|].
    intros H. injection H as <- <-.
    destruct (step_inv Hs) as (u & wa & wb & Hu & -> & Hnext).
    destruct Hn as [-> | ->]; [|discriminate].
    destruct (modelNode_inv Hu) as [(v0 & _ & ->) | (r & ->)]; intros v Hv Hunsafe.
    + simpl in Hv. injection Hv as ->. apply last_snoc.
    + exfalso. exact (Hcalm v Hv Hunsafe).
Qed.

(** X11.  A completed turn records an UNSAFE assessment only together with its
    flag message: if the stored assessment is UNSAFE, the last stored message
    is the synthetic message of the blocking step or of the Model step, built
    from that very assessment.  A turn that ends on a real model response
    therefore never carries UNSAFE. *)
Theorem unsafe_state_ends_with_flag P limit store input config w final store' w' v :
  turn P limit store input config w = (Ok final, store', w') ->
  safety final = Some v ->
  safety_assessment v = UNSAFE ->
  last (messages final) = Some (blockMessage v)
  \/ last (messages final) = Some (flaggedResponse v).
Proof.
  rewrite turn_unfold.
  destruct (run P config limit entryPoint _ _) as [[[[]|e] fin] w1] eqn:Hrun;
    [|discriminate].
  intros H. injection H as <- _ _. clear store' w'.
  destruct limit as [|k]; [discriminate|].
  change entryPoint with guard_input in Hrun. rewrite run_S in Hrun.
  destruct (step P config guard_input _ _) as [[[state1 [n1|]]|e] w2] eqn:Hs;
    [ | | discriminate].
  - destruct (step_inv Hs) as (u & wa & wb & Hu & -> & Hnext).
    assert (Hfst : fst (guardInput P (turnStart store input config) wa) = Ok u).
    { simpl in Hu. rewrite Hu. reflexivity. }
    destruct (guardInput_writes_safety Hfst) as [verdict ->].
    simpl in Hnext. unfold guardInputCondition in Hnext. simpl in Hnext.
    destruct (SafetyAssessment_eqb (safety_assessment verdict) UNSAFE) eqn:E;
      simpl in Hnext; injection Hnext as <-.
    + destruct k as [|k]; [discriminate|]. rewrite run_S in Hrun.
      destruct (step_block_unsafe_content P config
                  (applyUpdate (turnStart store input config)
                     {| u_messages := None; u_safety := Some verdict |}) w2)
        as (w3 & text & Hblock & Htext & _).
      rewrite Hblock in Hrun. destruct k; [discriminate|]. injection Hrun as <- _.
      simpl in Htext. subst text.
      intros Hv _. simpl in Hv. injection Hv as <-. left. apply last_snoc.
    + intros Hv Hunsafe. right.
      refine (run_after_screening _ _ Hrun Hv Hunsafe); [now left|].
      intros v0 Hv0. simpl in Hv0. injection Hv0 as <-.
      intros Heq. apply SafetyAssessment_eqb_eq in Heq. congruence.
  - destruct (step_inv Hs) as (u & wa & wb & _ & _ & Hnext).
    simpl in Hnext. destruct (String.eqb _ "unsafe"); discriminate.
Qed.

Lemma unsafe_state_ends_with_flag_witness :
  last [newHumanMessage "hi"; blockMessage flaggedVerdict]
  = Some (blockMessage flaggedVerdict)
  \/ last [newHumanMessage "hi"; blockMessage flaggedVerdict]
     = Some (flaggedResponse flaggedVerdict).
Proof.
  refine (@unsafe_state_ends_with_flag flagging defaultRecursionLimit ∅
            [newHumanMessage "hi"] greetingConfig emptyWorld
            {| messages := [newHumanMessage "hi"; blockMessage flaggedVerdict];
               safety := Some flaggedVerdict; is_last_step := None |}
            (snd (fst flaggedTurn)) (snd flaggedTurn) flaggedVerdict _ _ _);
    reflexivity.
Defined.

End RunFacts.

(** ** The wire shape and the service, further *)

Module WireFacts.
Import Msg Runtime LlamaGuard Agent Schema Service Vocabulary Scenarios Coverage.
Import GraphFacts ModelStep ServiceFacts RunFacts.

(** *** schema/schema.ts *)

Lemma append_empty (s : string) : s +:+ "" = s.
Proof.
  induction s as [|c s IH]; [reflexivity|].
  change (String c (s +:+ "") = String c s). now rewrite IH.
Qed.

Lemma append_assoc (a b c : string) : (a +:+ b) +:+ c = a +:+ (b +:+ c).
Proof.
  induction a as [|x a IH]; [reflexivity|].
  change (String x ((a +:+ b) +:+ c) = String x (a +:+ (b +:+ c))). now rewrite IH.
Qed.

Lemma join_empty_cons (p : string) (rest : list string) :
  Js.join "" (p :: rest) = p +:+ Js.join "" rest.
Proof. destruct rest; simpl; [now rewrite append_empty | reflexivity]. Qed.

Lemma join_empty_app (a b : list string) :
  Js.join "" (a ++ b) = Js.join "" a +:+ Js.join "" b.
Proof.
  induction a as [|p a IH]; [reflexivity|].
  change ((p :: a) ++ b) with (p :: (a ++ b)).
  rewrite !join_empty_cons, IH, append_assoc. reflexivity.
Qed.

(** X12.  The text of a structured content is the concatenation of the texts of
    its parts, and items of type [tool] contribute nothing: dropping them
    with [removeToolCalls] leaves the text as it was. *)
Theorem content_text_composes :
  (forall a b,
      convertMessageContentToString (Parts (a ++ b))
      = convertMessageContentToString (Parts a)
        +:+ convertMessageContentToString (Parts b))
  /\ (forall c,
        convertMessageContentToString (removeToolCalls c)
        = convertMessageContentToString c).
Proof.
  split.
  - intros a b. simpl. rewrite map_app. apply join_empty_app.
  - intros [s|items]; [reflexivity|]. simpl.
    induction items as [|i items IH]; [reflexivity|].
    cbn [List.filter map]. rewrite join_empty_cons.
    destruct i as [s|ty text]; cbn [isToolItem negb].
    + cbn [map]. rewrite join_empty_cons, IH. reflexivity.
    + destruct (String.eqb ty "tool") eqn:E; cbn [negb].
      * rewrite IH. apply String.eqb_eq in E. subst ty. reflexivity.
      * cbn [map]. rewrite join_empty_cons, IH. reflexivity.
Qed.

(** X13.  [fromLangChain] maps exactly the human, assistant (plain or chunk) and
    tool messages: for those the wire message has the type of the message,
    the text of its content, the message itself as [original] and no run id
    yet; for a message of any other class (a system message, a human chunk)
    it throws [Unsupported message type] with the name of the class. *)
Theorem fromLangChain_supported (m : BaseMessage) :
  (supported m = true ->
   exists cm,
     fromLangChain m = Ok cm
     /\ type cm = getType m
     /\ Schema.content cm = convertMessageContentToString (Msg.content m)
     /\ original cm = m
     /\ run_id cm = None)
  /\ (supported m = false ->
      fromLangChain m
      = Throw {| err_name := "Error";
                 err_message := "Unsupported message type: "
                                +:+ className (class m) |}).
Proof.
  unfold supported, fromLangChain, instanceof, getType.
  destruct (class m); simpl; split; intros H; try discriminate;
    try reflexivity; eexists; repeat split; reflexivity.
Qed.

(** *** service/service.ts: history *)

(** X14.  The history of a thread without stored state is an error, not an empty
    list; after any turn on a thread, completed or failed, the history of
    that thread is available and has one entry per stored message, in order,
    each with the content of its message. *)
Theorem history_needs_a_turn :
  (forall store thread,
      store !! thread = None ->
      exists e, history store thread = Throw e /\ err_name e = "TypeError")
  /\ (forall P limit store input config w,
        exists state' entries,
          snd (fst (turn P limit store input config w)) !! Runtime.thread_id config
          = Some state'
          /\ history (snd (fst (turn P limit store input config w)))
               (Runtime.thread_id config)
             = Ok entries
          /\ map h_content entries = map Msg.content (messages state')).
Proof.
  split.
  - intros store thread H. unfold history. rewrite H. eexists. split; reflexivity.
  - intros P limit store input config w.
    destruct (turn_is_append_only P limit store input config w)
      as (state' & added & Hs & _).
    exists state', (map historyEntry (messages state')).
    split; [exact Hs|]. split; [now apply history_of_thread|].
    rewrite map_map. reflexivity.
Qed.

(** *** service/service.ts: invoke *)

(** X15.  [POST /invoke] answers a completed turn with the content of the last
    stored message, which is an assistant message, under the run id drawn
    first; it never fails on a completed turn, and it answers a failed turn
    with the turn's own error. *)
Theorem invoke_answers_with_last_message P uuidv4 limit store userInput w :
  (forall final store' w',
      turn P limit store (fst (fst (parseInput uuidv4 userInput)))
        (snd (fst (parseInput uuidv4 userInput))) w
      = (Ok final, store', w') ->
      exists m,
        last (messages final) = Some m
        /\ isAssistant m
        /\ Service.invoke P uuidv4 limit store userInput w
           = (Ok {| o_type := "ai"; o_content := Msg.content m;
                    o_run_id := uuidv4 0 |}, store', w'))
  /\ (forall e store' w',
        turn P limit store (fst (fst (parseInput uuidv4 userInput)))
          (snd (fst (parseInput uuidv4 userInput))) w
        = (Throw e, store', w') ->
        Service.invoke P uuidv4 limit store userInput w = (Throw e, store', w')).
Proof.
  unfold Service.invoke.
  destruct (parseInput uuidv4 userInput) as [[input config] runId] eqn:Hp.
  assert (HrunId : runId = uuidv4 0).
  { unfold parseInput in Hp. injection Hp as _ _ <-. reflexivity. }
  simpl. split.
  - intros final store' w' Ht.
    destruct (completed_turn_ends_with_assistant Ht) as (m & _ & Hl & Ha & _).
    exists m. rewrite Ht, Hl, HrunId. auto.
  - intros e store' w' Ht. rewrite Ht. reflexivity.
Qed.

(** *** service/service.ts: the relay *)

(** Whatever the relay yields is the end-of-stream marker or comes from one
    of the two branches of the loop body, for one of the events. *)
Lemma relay_elements userInput runId evs failure x :
  In x (fst (relay userInput runId evs failure)) ->
  x = SseDone
  \/ exists ev,
       In (Some ev) evs
       /\ ((exists out, relayStep userInput runId ev = Ok out /\ In x out)
           \/ (exists out, relayToken userInput ev = Ok out /\ In x out)).
Proof.
  induction evs as [|[ev|] evs IH].
  - destruct failure; simpl; intuition.
  - cbn [relay].
    destruct (relayStep userInput runId ev) as [out1|e] eqn:E1; [|intros []].
    destruct (relayToken userInput ev) as [out2|e] eqn:E2.
    + destruct (relay userInput runId evs failure) as [outs err]. cbn [fst] in *.
      intros Hin. apply in_app_or in Hin as [Hin|Hin].
      { right. exists ev. split; [now left|]. left. eauto. }
      apply in_app_or in Hin as [Hin|Hin].
      { right. exists ev. split; [now left|]. right. eauto. }
      destruct (IH Hin) as [-> | (ev' & Hev & H)]; [now left|].
      right. exists ev'. split; [now right | exact H].
    + cbn [fst]. intros Hin. right. exists ev. split; [now left|]. left. eauto.
  - cbn [relay]. intros Hin.
    destruct (IH Hin) as [-> | (ev' & Hev & H)]; [now left|].
    right. exists ev'. split; [now right | exact H].
Qed.

Lemma relayMessage_kinds userInput runId m x :
  In x (relayMessage userInput runId m) ->
  (exists cm, x = SseMessage cm /\ run_id cm = Some runId)
  \/ (exists text, x = SseError text).
Proof.
  unfold relayMessage. destruct (fromLangChain m) as [cm0|e].
  - destruct (_ && _); simpl; [intros [] | intros [<-|[]]].
    left. eexists. split; reflexivity.
  - simpl. intros [<-|[]]. right. eauto.
Qed.

Lemma relayStep_kinds userInput runId ev out x :
  relayStep userInput runId ev = Ok out -> In x out ->
  (exists cm, x = SseMessage cm /\ run_id cm = Some runId)
  \/ (exists text, x = SseError text).
Proof.
  unfold relayStep. destruct (_ && _); [|intros H; injection H as <-; intros []].
  destruct (data_output ev) as [o|]; [|discriminate].
  destruct (out_messages o) as [msgs|]; intros H; injection H as <-; [|intros []].
  intros Hin. apply in_flat_map in Hin as (m & _ & Hin).
  eapply relayMessage_kinds, Hin.
Qed.

Lemma relayToken_inv userInput ev out x :
  relayToken userInput ev = Ok out -> In x out ->
  exists text,
    x = SseToken text
    /\ stream_tokens userInput = true
    /\ event ev = "on_chat_model_stream"
    /\ includesTag ev "llama_guard" = false
    /\ data_chunk ev = Some (Text text)
    /\ Js.trim text <> "".
Proof.
  unfold relayToken.
  destruct (String.eqb (event ev) "on_chat_model_stream") eqn:Ee; simpl;
    [|intros H; injection H as <-; intros []].
  destruct (stream_tokens userInput); simpl;
    [|intros H; injection H as <-; intros []].
  destruct (includesTag ev "llama_guard") eqn:Et; simpl;
    [intros H; injection H as <-; intros []|].
  destruct (data_chunk ev) as [[text|items]|]; simpl; [| |discriminate].
  - destruct (Js.trim text) eqn:Etrim; simpl; intros H; injection H as <-;
      [intros [] | intros [<-|[]]].
    exists text. rewrite Etrim. apply String.eqb_eq in Ee.
    repeat split; auto; try discriminate.
  - intros H. injection H as <-. intros [].
Qed.

(** X16.  Every [token] event of a stream is the text of one streamed chunk of a
    chat model: the request asked for tokens, the chunk does not carry the
    classifier's tag, its content is a plain string and is not blank.  With
    [stream_tokens] off no [token] event is emitted at all, whatever the
    events of the run. *)
Theorem tokens_are_untagged_model_text userInput runId evs failure :
  (forall text,
      In (SseToken text) (fst (relay userInput runId evs failure)) ->
      stream_tokens userInput = true
      /\ Js.trim text <> ""
      /\ exists ev,
           In (Some ev) evs
           /\ event ev = "on_chat_model_stream"
           /\ includesTag ev "llama_guard" = false
           /\ data_chunk ev = Some (Text text))
  /\ (stream_tokens userInput = false ->
      forall text, ~ In (SseToken text) (fst (relay userInput runId evs failure))).
Proof.
  assert (H : forall text,
             In (SseToken text) (fst (relay userInput runId evs failure)) ->
             stream_tokens userInput = true
             /\ Js.trim text <> ""
             /\ exists ev,
                  In (Some ev) evs
                  /\ event ev = "on_chat_model_stream"
                  /\ includesTag ev "llama_guard" = false
                  /\ data_chunk ev = Some (Text text)).
  { intros text Hin.
    destruct (relay_elements Hin) as [H | (ev & Hev & [(out & Ho & Hx) | (out & Ho & Hx)])].
    - discriminate.
    - destruct (relayStep_kinds Ho Hx) as [(cm & H & _) | (s & H)]; discriminate.
    - destruct (relayToken_inv Ho Hx) as (t & Heq & Hs & He & Ht & Hc & Hb).
      injection Heq as ->. split; [exact Hs|]. split; [exact Hb|].
      exists ev. auto. }
  split; [exact H|].
  intros Hoff text Hin. destruct (H text Hin) as [Hon _]. congruence.
Qed.

(** Every [message] event of a stream carries the run id of the request. *)
Lemma relay_messages_carry_run_id userInput runId evs failure cm :
  In (SseMessage cm) (fst (relay userInput runId evs failure)) ->
  run_id cm = Some runId.
Proof.
  intros Hin.
  destruct (relay_elements Hin) as [H | (ev & Hev & [(out & Ho & Hx) | (out & Ho & Hx)])].
  - discriminate.
  - destruct (relayStep_kinds Ho Hx) as [(cm' & H & Hr) | (s & H)]; [|discriminate].
    injection H as ->. exact Hr.
  - destruct (relayToken_inv Ho Hx) as (t & Heq & _). discriminate.
Qed.

Lemma relay_terminal userInput runId evs failure :
  match snd (relay userInput runId evs failure) with
  | None =>
      exists body,
        fst (relay userInput runId evs failure) = body ++ [SseDone]
        /\ ~ In SseDone body
  | Some _ => ~ In SseDone (fst (relay userInput runId evs failure))
  end.
Proof.
  assert (Hstep : forall ev out, relayStep userInput runId ev = Ok out ->
                                 ~ In SseDone out).
  { intros ev out Ho Hx.
    destruct (relayStep_kinds Ho Hx) as [(cm & H & _) | (s & H)]; discriminate. }
  assert (Htok : forall ev out, relayToken userInput ev = Ok out ->
                                ~ In SseDone out).
  { intros ev out Ho Hx.
    destruct (relayToken_inv Ho Hx) as (t & H & _). discriminate. }
  induction evs as [|[ev|] evs IH].
  - destruct failure; simpl; [intros [] | exists []; split; [reflexivity | intros []]].
  - cbn [relay].
    destruct (relayStep userInput runId ev) as [out1|e] eqn:E1; [|simpl; intros []].
    destruct (relayToken userInput ev) as [out2|e] eqn:E2.
    + destruct (relay userInput runId evs failure) as [outs [e|]]; cbn [fst snd] in *.
      * intros Hin. apply in_app_or in Hin as [Hin|Hin]; [exact (Hstep _ _ E1 Hin)|].
        apply in_app_or in Hin as [Hin|Hin]; [exact (Htok _ _ E2 Hin) | exact (IH Hin)].
      * destruct IH as (body & -> & Hbody).
        exists (out1 ++ out2 ++ body). split; [now rewrite <- !app_assoc|].
        intros Hin. apply in_app_or in Hin as [Hin|Hin]; [exact (Hstep _ _ E1 Hin)|].
        apply in_app_or in Hin as [Hin|Hin]; [exact (Htok _ _ E2 Hin) | exact (Hbody Hin)].
    + cbn [fst snd]. exact (Hstep _ _ E1).
  - cbn [relay]. exact IH.
Qed.

(** The relay runs to its end only when the run itself did not fail. *)
Lemma relay_outcome userInput runId evs failure :
  snd (relay userInput runId evs failure) = None -> failure = None.
Proof.
  induction evs as [|[ev|] evs IH]; cbn [relay].
  - destruct failure; [discriminate | reflexivity].
  - destruct (relayStep userInput runId ev); [|discriminate].
    destruct (relayToken userInput ev); [|discriminate].
    destruct (relay userInput runId evs failure) as [outs err]. exact IH.
  - exact IH.
Qed.

(** X17.  The response of [POST /stream] is decided by how the generator ends.
    When the generator ran to its end, which it does only if the turn
    completed, the response is what it yielded, and that ends with the
    end-of-stream marker, which occurs nowhere before.  When it threw an
    error, the response is what it had yielded until then, the marker not
    among it, followed by one error chunk whose content is the message of
    that error.  Every [message] event in the response carries the run id
    drawn first for the request. *)
Theorem stream_closes_once P uuidv4 limit store userInput w :
  (forall chunks store' w',
      messageGenerator P uuidv4 limit store userInput w
      = ((chunks, None), store', w') ->
      stream P uuidv4 limit store userInput w = chunks
      /\ (exists body, chunks = body ++ [SseDone] /\ ~ In SseDone body)
      /\ exists final,
           fst (fst (turn P limit store
                       (fst (fst (parseInput uuidv4 (user userInput))))
                       (snd (fst (parseInput uuidv4 (user userInput)))) w))
           = Ok final)
  /\ (forall chunks e store' w',
        messageGenerator P uuidv4 limit store userInput w
        = ((chunks, Some e), store', w') ->
        stream P uuidv4 limit store userInput w
        = chunks ++ [SseError (err_message e)]
        /\ ~ In SseDone chunks)
  /\ (forall cm,
        In (SseMessage cm) (stream P uuidv4 limit store userInput w) ->
        run_id cm = Some (uuidv4 0)).
Proof.
  unfold stream, messageGenerator.
  destruct (parseInput uuidv4 (user userInput)) as [[input config] runId] eqn:Hp.
  assert (HrunId : runId = uuidv4 0).
  { unfold parseInput in Hp. injection Hp as _ _ <-. reflexivity. }
  cbn [fst snd].
  destruct (turn P limit store input config w) as [[result store0] w0].
  pose proof (relay_terminal userInput runId
                (map Some (drop (length (events w)) (events w0)))
                (failureOf result)) as Hterm.
  pose proof (@relay_outcome userInput runId
                (map Some (drop (length (events w)) (events w0)))
                (failureOf result)) as Hout.
  pose proof (@relay_messages_carry_run_id userInput runId
                (map Some (drop (length (events w)) (events w0)))
                (failureOf result)) as Hid.
  destruct (relay userInput runId _ (failureOf result)) as [yielded [e0|]];
    cbn [fst snd] in *.
  - split; [intros chunks store' w' H; discriminate|]. split.
    + intros chunks e store' w' H. injection H as <- <- _ _.
      split; [reflexivity | exact Hterm].
    + intros cm Hin. apply in_app_or in Hin as [Hin|[H|[]]]; [|discriminate].
      rewrite <- HrunId. now apply Hid.
  - split.
    + intros chunks store' w' H. injection H as <- _ _.
      split; [reflexivity|]. split; [exact Hterm|].
      specialize (Hout eq_refl). destruct result as [final|e]; [eauto | discriminate].
    + split; [intros chunks e store' w' H; discriminate|].
      intros cm Hin. rewrite <- HrunId. now apply Hid.
Qed.

(** X18.  A message the wire shape does not support does not stop the relay: in a
    completed step of the Model or Tools node it is reported by one error
    event, in its place, and the messages before and after it are relayed
    as usual. *)
Theorem unsupported_message_is_reported userInput runId ev before bad after :
  event ev = "on_chain_end" ->
  fromNode ev "model" = true \/ fromNode ev "tools" = true ->
  data_output ev = Some {| out_messages := Some (before ++ bad :: after) |} ->
  supported bad = false ->
  relayStep userInput runId ev
  = Ok (flat_map (relayMessage userInput runId) before
        ++ [SseError ("Error parsing message: Error: Unsupported message type: "
                      +:+ className (class bad))]
        ++ flat_map (relayMessage userInput runId) after).
Proof.
  intros He Hn Hd Hbad. unfold relayStep. rewrite He, Hd.
  replace (fromNode ev "model" || fromNode ev "tools") with true
    by (destruct Hn as [-> | ->]; [reflexivity | now rewrite orb_true_r]).
  simpl. rewrite flat_map_app. simpl.
  unfold relayMessage at 2.
  rewrite (proj2 (fromLangChain_supported bad) Hbad). reflexivity.
Qed.

Lemma unsupported_message_is_reported_witness :
  relayStep (streamed greeting) "run-0"
    (chainEvent "on_chain_end" Agent.model
       (Some {| out_messages := Some ([chunkOf hello] ++ systemNote :: [toolNote]) |}))
  = Ok (flat_map (relayMessage (streamed greeting) "run-0") [chunkOf hello]
        ++ [SseError "Error parsing message: Error: Unsupported message type: SystemMessage"]
        ++ flat_map (relayMessage (streamed greeting) "run-0") [toolNote]).
Proof.
  apply (@unsupported_message_is_reported (streamed greeting) "run-0"
           (chainEvent "on_chain_end" Agent.model
              (Some {| out_messages :=
                         Some ([chunkOf hello] ++ systemNote :: [toolNote]) |}))
           [chunkOf hello] systemNote [toolNote]);
    try reflexivity.
  left. reflexivity.
Defined.

End WireFacts.

(** ** What the providers are asked *)

Module RequestFacts.
Import Msg Runtime LlamaGuard Agent Schema Service Vocabulary Scenarios Coverage.
Import GraphFacts ModelStep ServiceFacts RunFacts WireFacts.
Local Open Scope agent_scope.

Lemma configured_guard P :
  (exists c key, GROQ_API_KEY P = Some (String c key)) ->
  LlamaGuard.model (llamaGuard P)
  = Some {| g_modelName := "llama-guard-3-8b"; g_temperature := 0%Q;
            g_tags := ["llama_guard"] |}.
Proof.
  intros (c & key & H). unfold llamaGuard, LlamaGuard.new. rewrite H. reflexivity.
Qed.

(** X19.  With a credential configured, a Model step whose model call succeeds
    sends, in this order, one request to the chat model and one
    classification request; the latter is the prompt for the role Agent over
    the whole history followed by the response. *)
Theorem model_step_screens_response P state config w response :
  (exists c key, GROQ_API_KEY P = Some (String c key)) ->
  openai P (length (model_requests w)) (modelCall P state config) = Ok response ->
  model_requests (snd (modelNode P state config w))
  = model_requests w ++ [modelCall P state config]
  /\ guard_requests (snd (modelNode P state config w))
     = guard_requests w
       ++ [compilePrompt "Agent" (messages state ++ [chunkOf response])].
Proof.
  intros Hkey Hr.
  split;
    unfold modelNode; rewrite default_model_present;
    unfold bind at 1, complete; fold (modelCall P state config); rewrite Hr;
    unfold LlamaGuard.invoke; rewrite (configured_guard Hkey);
    unfold bind, classify, ret; simpl;
    (destruct (groq P _ _); [destruct (SafetyAssessment_eqb _ _)|]); reflexivity.
Qed.

Lemma model_step_screens_response_witness :
  model_requests (snd (modelNode permissive afterGreeting greetingConfig emptyWorld))
  = [] ++ [modelCall permissive afterGreeting greetingConfig]
  /\ guard_requests (snd (modelNode permissive afterGreeting greetingConfig emptyWorld))
     = [] ++ [compilePrompt "Agent" (messages afterGreeting ++ [chunkOf hello])].
Proof.
  apply (@model_step_screens_response permissive afterGreeting greetingConfig
           emptyWorld hello).
  - exists "g"%char, "sk". reflexivity.
  - reflexivity.
Defined.

(** *** The requests of a whole turn *)

Lemma nodeAction_model_requests P config n state w :
  exists calls,
    model_requests (snd (nodeAction P config n state w)) = model_requests w ++ calls
    /\ Forall (fun c => c = modelCall P state config) calls.
Proof.
  destruct n; simpl.
  - exists []. rewrite app_nil_r. split; [|constructor].
    unfold guardInput, LlamaGuard.invoke.
    destruct (LlamaGuard.model (llamaGuard P)); unfold bind, classify, ret; simpl;
      [destruct (groq P _ _)|]; reflexivity.
  - exists []. rewrite app_nil_r. split; [reflexivity | constructor].
  - exists [modelCall P state config]. split; [|repeat constructor].
    unfold modelNode. rewrite default_model_present.
    unfold bind at 1, complete. fold (modelCall P state config).
    destruct (openai P _ _); [|reflexivity].
    unfold LlamaGuard.invoke.
    destruct (LlamaGuard.model (llamaGuard P)); unfold bind, classify, ret; simpl;
      [destruct (groq P _ _); [destruct (SafetyAssessment_eqb _ _)|]|];
      reflexivity.
  - exists []. rewrite app_nil_r. split; [|constructor].
    unfold bind, runTools, ret. simpl. destruct (toolNode P _ _); reflexivity.
Qed.

Lemma step_model_requests P config n state w :
  exists calls,
    model_requests (snd (step P config n state w)) = model_requests w ++ calls
    /\ Forall (fun c => c = modelCall P state config) calls.
Proof.
  unfold step, bind at 1 2. simpl. unfold bind at 1.
  match goal with
  | |- context [nodeAction P config n state ?w1] =>
      destruct (nodeAction_model_requests P config n state w1) as (calls & Hc & Hf);
      destruct (nodeAction P config n state w1) as [[u|e] w2]
  end; simpl in *; exists calls; (split; [|exact Hf]); [|exact Hc].
  unfold bind, publish, lift, ret; simpl.
  destruct (nextNode n (applyUpdate state u)); simpl; exact Hc.
Qed.

Lemma run_model_requests P config limit n state w :
  exists calls,
    model_requests (snd (run P config limit n state w)) = model_requests w ++ calls
    /\ Forall (fun c => exists added,
                   c = {| mc_client := defaultClient; mc_tools := tools;
                          mc_messages := newSystemMessage (instructions P)
                                         :: (messages state ++ added);
                          mc_config := config |}) calls.
Proof.
  revert n state w. induction limit as [|k IH]; intros n state w.
  - exists []. simpl. split; [now rewrite app_nil_r | constructor].
  - rewrite run_world.
    destruct (step_model_requests P config n state w) as (c1 & H1 & F1).
    assert (F1' : Forall (fun c => exists added,
                   c = {| mc_client := defaultClient; mc_tools := tools;
                          mc_messages := newSystemMessage (instructions P)
                                         :: (messages state ++ added);
                          mc_config := config |}) c1).
    { eapply Forall_impl; [exact F1|]. intros c ->. exists [].
      rewrite app_nil_r. reflexivity. }
    destruct (step P config n state w) as [[[state' [n'|]]|e] w1] eqn:Hs;
      simpl in H1; try (exists c1; split; assumption).
    destruct (step_inv Hs) as (u & wa & wb & _ & -> & _).
    destruct (applyUpdate_appends state u) as [a1 Ha].
    destruct (IH n' (applyUpdate state u) w1) as (c2 & H2 & F2).
    exists (c1 ++ c2). split; [rewrite H2, H1, app_assoc; reflexivity|].
    apply Forall_app. split; [exact F1'|].
    eapply Forall_impl; [exact F2|]. intros c [added ->].
    exists (a1 ++ added). rewrite Ha, <- app_assoc. reflexivity.
Qed.

(** X20.  Every request a turn sends to the chat model has the two tools bound,
    carries the configuration of the run, and has as its prompt the system
    instruction followed by the whole conversation: everything stored for
    the thread, the input, and whatever the turn had added by then. *)
Theorem model_requests_carry_the_history P limit store input config w :
  exists calls,
    model_requests (snd (turn P limit store input config w))
    = model_requests w ++ calls
    /\ Forall (fun c =>
                 mc_tools c = ["duckduckgo-search"; "calculator"]
                 /\ mc_config c = config
                 /\ exists added,
                      mc_messages c
                      = newSystemMessage (instructions P)
                        :: (messages (default emptyState (store !! Runtime.thread_id config))
                            ++ input ++ added)) calls.
Proof.
  destruct (turn_world P limit store input config w) as [_ ->].
  destruct (run_model_requests P config limit entryPoint
              (turnStart store input config)
              (snd (publish [rootEvent "on_chain_start" None] w)))
    as (calls & Hc & Hf).
  exists calls. split; [exact Hc|].
  eapply Forall_impl; [exact Hf|]. intros c [added ->]. simpl.
  split; [reflexivity|]. split; [reflexivity|].
  exists added. rewrite <- app_assoc. reflexivity.
Qed.

(** *** The classification requests of a turn *)

Lemma requestsExtend_refl w : requestsExtend w w.
Proof. exists []. now rewrite app_nil_r. Qed.

Lemma requestsExtend_trans a b c :
  requestsExtend a b -> requestsExtend b c -> requestsExtend a c.
Proof.
  intros [m1 H1] [m2 H2]. exists (m1 ++ m2). rewrite H2, H1, app_assoc. reflexivity.
Qed.

Lemma run_requestsExtend P config limit n state w :
  requestsExtend w (snd (run P config limit n state w)).
Proof.
  apply (@respects_run requestsExtend requestsExtend_refl requestsExtend_trans).
  - intros P' tgs prompt w0. exists [prompt]. reflexivity.
  - intros P' call Hc w0. exists []. simpl. now rewrite app_nil_r.
  - intros P' msgs w0. exists []. simpl. now rewrite app_nil_r.
  - intros evs w0. exists []. simpl. now rewrite app_nil_r.
  - intros node w0. exists []. simpl. now rewrite app_nil_r.
Qed.

Lemma step_guard_requests P config state w :
  (exists c key, GROQ_API_KEY P = Some (String c key)) ->
  guard_requests (snd (step P config guard_input state w))
  = guard_requests w ++ [compilePrompt "User" (messages state)].
Proof.
  intros Hkey.
  unfold step, nodeAction, guardInput, LlamaGuard.invoke.
  rewrite (configured_guard Hkey).
  unfold bind, enter, publish, classify, lift, ret. simpl.
  destruct (groq P _ _); simpl; [|reflexivity].
  destruct (String.eqb _ "unsafe"); reflexivity.
Qed.

Lemma turn_guard_requests P limit store input config w :
  guard_requests (snd (turn P limit store input config w))
  = guard_requests
      (snd (run P config limit entryPoint (turnStart store input config)
              (snd (publish [rootEvent "on_chain_start" None] w)))).
Proof.
  rewrite turn_unfold.
  destruct (run P config limit entryPoint _ _) as [[[[]|e] final] w']; reflexivity.
Qed.

(** X21.  With a credential configured, the first classification request of a turn
    is the prompt for the role User over the whole conversation: everything
    stored for the thread followed by the input, not the new message
    alone. *)
Theorem input_screening_sees_the_history P limit store input config w :
  (exists c key, GROQ_API_KEY P = Some (String c key)) ->
  1 <= limit ->
  exists more,
    guard_requests (snd (turn P limit store input config w))
    = guard_requests w
      ++ compilePrompt "User"
           (messages (default emptyState (store !! Runtime.thread_id config)) ++ input)
         :: more.
Proof.
  intros Hkey Hlimit. destruct limit as [|k]; [lia|].
  rewrite turn_guard_requests. change entryPoint with guard_input.
  rewrite run_world.
  pose proof (step_guard_requests config (turnStart store input config)
                (snd (publish [rootEvent "on_chain_start" None] w)) Hkey) as Hg.
  destruct (step P config guard_input _ _) as [[[state' [n'|]]|e] w1];
    simpl in Hg; try (exists []; exact Hg).
  destruct (run_requestsExtend P config k n' state' w1) as [more Hm].
  exists more. rewrite Hm, Hg, <- app_assoc. reflexivity.
Qed.

Lemma input_screening_sees_the_history_witness :
  exists more,
    guard_requests
      (snd (turn permissive defaultRecursionLimit afterSum
              [newHumanMessage "and 3+3?"]
              {| Runtime.thread_id := "t2"; cfg_model := "gpt-4"; runId := "run-1" |}
              emptyWorld))
    = guard_requests emptyWorld
      ++ compilePrompt "User"
           (messages (default emptyState (afterSum !! "t2"))
            ++ [newHumanMessage "and 3+3?"])
         :: more.
Proof.
  apply (@input_screening_sees_the_history permissive defaultRecursionLimit afterSum
           [newHumanMessage "and 3+3?"]
           {| Runtime.thread_id := "t2"; cfg_model := "gpt-4"; runId := "run-1" |}
           emptyWorld).
  - exists "g"%char, "sk". reflexivity.
  - unfold defaultRecursionLimit. lia.
Defined.

(** *** Requests and threads *)

(** X22.  Both endpoints append to the thread the request names, or to a fresh
    thread under the second identifier drawn when it names none (or an empty
    one): after the request, completed or failed, that thread holds what it
    held before, then the caller's message as a human message, then what
    the turn added. *)
Theorem request_appends_to_its_thread P uuidv4 limit store userInput w :
  (exists state' added,
      snd (fst (Service.invoke P uuidv4 limit store userInput w))
        !! orElse (Schema.thread_id userInput) (uuidv4 1)
      = Some state'
      /\ messages state'
         = messages (default emptyState
                       (store !! orElse (Schema.thread_id userInput) (uuidv4 1)))
           ++ [newHumanMessage (message userInput)] ++ added)
  /\ (forall tokens,
        exists state' added,
          snd (fst (messageGenerator P uuidv4 limit store
                      {| user := userInput; stream_tokens := tokens |} w))
            !! orElse (Schema.thread_id userInput) (uuidv4 1)
          = Some state'
          /\ messages state'
             = messages (default emptyState
                           (store !! orElse (Schema.thread_id userInput) (uuidv4 1)))
               ++ [newHumanMessage (message userInput)] ++ added).
Proof.
  pose proof (turn_is_append_only P limit store
                [newHumanMessage (message userInput)]
                {| Runtime.thread_id := orElse (Schema.thread_id userInput) (uuidv4 1);
                   cfg_model := orElse (Schema.model userInput) "gpt-4";
                   runId := uuidv4 0 |} w) as H.
  simpl in H. split; [|intros tokens];
    unfold Service.invoke, messageGenerator, parseInput; simpl;
    destruct (turn P limit store _ _ w) as [[result store'] w']; exact H.
Qed.

(** X23.  The history operation gives every stored message its content unchanged
    and one of two types: [human] for a human message, [ai] for every other
    message, tool results included. *)
Theorem history_has_two_types store thread state :
  store !! thread = Some state ->
  exists entries,
    history store thread = Ok entries
    /\ Forall2 (fun m e =>
                  h_content e = Msg.content m
                  /\ h_type e = match class m with
                                | HumanMessage => "human"
                                | _ => "ai"
                                end)
         (messages state) entries.
Proof.
  intros H. exists (map historyEntry (messages state)).
  split; [now apply history_of_thread|].
  induction (messages state) as [|m ms IH]; simpl; constructor; [|exact IH].
  split; [reflexivity|].
  unfold historyEntry, instanceof. destruct (class m); reflexivity.
Qed.

Lemma history_has_two_types_witness :
  exists entries,
    history afterSum "t2" = Ok entries
    /\ Forall2 (fun m e =>
                  h_content e = Msg.content m
                  /\ h_type e = match class m with
                                | HumanMessage => "human"
                                | _ => "ai"
                                end)
         [newHumanMessage "What is 2+2?";
          chunkOf {| r_content := Text ""; r_tool_calls := [calculatorCall] |};
          calculatorResult;
          chunkOf {| r_content := Text "2+2 is 4"; r_tool_calls := [] |}]
         entries.
Proof.
  apply (@history_has_two_types afterSum "t2"
           {| messages :=
                [newHumanMessage "What is 2+2?";
                 chunkOf {| r_content := Text ""; r_tool_calls := [calculatorCall] |};
                 calculatorResult;
                 chunkOf {| r_content := Text "2+2 is 4"; r_tool_calls := [] |}];
              safety := Some safeOutput; is_last_step := None |}).
  reflexivity.
Defined.

End RequestFacts.
